(** * A shallow embedding of the ignore-pattern matcher, the ignore-set
    resolver, the content classifier and the directory walker of [pew]
    (src/main.go), together with the parts of Go's [path/filepath],
    [strings] and [unicode/utf8] packages that they call. *)

From Stdlib Require Import String Ascii List Bool Arith ZArith Lia Permutation Sorted.
From Stdlib Require Import Floats.
Import ListNotations.
Open Scope string_scope.
Set Warnings "-register-all".

(** ** Go [strings] helpers, on byte strings *)

Module GoStrings.

Definition char_eqb (a b : ascii) : bool := Ascii.eqb a b.

(** [strings.HasPrefix] *)
Fixpoint HasPrefix (s prefix : string) : bool :=
  match prefix, s with
  | EmptyString, _ => true
  | String p ps, String c cs => char_eqb p c && HasPrefix cs ps
  | String _ _, EmptyString => false
  end.

(** [strings.HasSuffix] *)
Definition HasSuffix (s suffix : string) : bool :=
  HasPrefix (string_of_list_ascii (rev (list_ascii_of_string s)))
            (string_of_list_ascii (rev (list_ascii_of_string suffix))).

(** [strings.Contains] with a one-byte needle *)
Fixpoint ContainsChar (s : string) (c : ascii) : bool :=
  match s with
  | EmptyString => false
  | String d r => char_eqb d c || ContainsChar r c
  end.

(** [strings.ReplaceAll] with a one-byte [old] *)
Fixpoint ReplaceAllChar (s : string) (old : ascii) (new : string) : string :=
  match s with
  | EmptyString => EmptyString
  | String d r =>
      if char_eqb d old then new ++ ReplaceAllChar r old new
      else String d (ReplaceAllChar r old new)
  end.

(** [strings.TrimSuffix s "/"] *)
Definition TrimSuffixSlash (s : string) : string :=
  if HasSuffix s "/" then substring 0 (String.length s - 1) s else s.

(** [strings.Split] with a one-byte separator: [Split "" "/" = [""]]. *)
Fixpoint SplitChar (s : string) (sep : ascii) : list string :=
  match s with
  | EmptyString => [EmptyString]
  | String c r =>
      if char_eqb c sep then EmptyString :: SplitChar r sep
      else match SplitChar r sep with
           | h :: t => String c h :: t
           | [] => [String c EmptyString]
           end
  end.

End GoStrings.
Import GoStrings.

(** ** Go [path/filepath] on a Unix host ([Separator = '/']) *)

Module FilePath.

(** [filepath.ToSlash] is the identity when the separator is '/'. *)
Definition ToSlash (p : string) : string := p.

Fixpoint drop_trailing_slashes (r : list ascii) : list ascii :=
  match r with
  | "/"%char :: r' => drop_trailing_slashes r'
  | _ => r
  end.

Fixpoint take_until_slash (r : list ascii) : list ascii :=
  match r with
  | [] => []
  | c :: r' => if char_eqb c "/" then [] else c :: take_until_slash r'
  end.

(** [filepath.Base]: strip trailing slashes, keep the last element;
    "." for the empty path and "/" for a path of slashes only.
    The helpers work on the reversed path. *)
Definition Base (path : string) : string :=
  match path with
  | EmptyString => "."
  | _ =>
      let r := drop_trailing_slashes (rev (list_ascii_of_string path)) in
      match r with
      | [] => "/"
      | _ => string_of_list_ascii (rev (take_until_slash r))
      end
  end.

(** [filepath.Ext]: the suffix from the last '.' of the last element. *)
Definition Ext (path : string) : string :=
  let fix go (r : list ascii) (acc : list ascii) : list ascii :=
    match r with
    | [] => []
    | c :: r' =>
        if char_eqb c "/" then []
        else if char_eqb c "." then c :: acc
        else go r' (c :: acc)
    end in
  string_of_list_ascii (go (rev (list_ascii_of_string path)) []).

End FilePath.

(** ** Go [unicode/utf8.DecodeRuneInString] *)

Module UTF8.
Local Open Scope Z_scope.

Definition RuneError : Z := 65533.

Definition val (c : ascii) : Z := Z.of_nat (nat_of_ascii c).

(** The [first] table of [unicode/utf8]: for a leading byte of a multi-byte
    sequence, its size and the accepted range of the second byte. *)
Definition lead_info (b0 : Z) : option (nat * Z * Z) :=
  if (0xC2 <=? b0) && (b0 <=? 0xDF) then Some (2%nat, 0x80, 0xBF)
  else if b0 =? 0xE0 then Some (3%nat, 0xA0, 0xBF)
  else if (0xE1 <=? b0) && (b0 <=? 0xEC) then Some (3%nat, 0x80, 0xBF)
  else if b0 =? 0xED then Some (3%nat, 0x80, 0x9F)
  else if (0xEE <=? b0) && (b0 <=? 0xEF) then Some (3%nat, 0x80, 0xBF)
  else if b0 =? 0xF0 then Some (4%nat, 0x90, 0xBF)
  else if (0xF1 <=? b0) && (b0 <=? 0xF3) then Some (4%nat, 0x80, 0xBF)
  else if b0 =? 0xF4 then Some (4%nat, 0x80, 0x8F)
  else None.

Definition in_range (lo hi : Z) (c : ascii) : bool := (lo <=? val c) && (val c <=? hi).

Definition cont (c : ascii) : bool := in_range 0x80 0xBF c.

Definition low6 (c : ascii) : Z := Z.land (val c) 0x3F.

(** [DecodeRuneInString s]: the rune and its width in bytes. *)
Definition DecodeRuneInString (s : string) : Z * nat :=
  match s with
  | EmptyString => (RuneError, 0%nat)
  | String c0 r =>
      let b0 := val c0 in
      if b0 <? 0x80 then (b0, 1%nat) else
      match lead_info b0 with
      | None => (RuneError, 1%nat)
      | Some (sz, lo, hi) =>
          if (String.length s <? sz)%nat then (RuneError, 1%nat) else
          match r with
          | String c1 r1 =>
              if negb (in_range lo hi c1) then (RuneError, 1%nat)
              else if (sz =? 2)%nat then
                (Z.lor (Z.shiftl (Z.land b0 0x1F) 6) (low6 c1), 2%nat)
              else match r1 with
                   | String c2 r2 =>
                       if negb (cont c2) then (RuneError, 1%nat)
                       else if (sz =? 3)%nat then
                         (Z.lor (Z.shiftl (Z.land b0 0x0F) 12)
                            (Z.lor (Z.shiftl (low6 c1) 6) (low6 c2)), 3%nat)
                       else match r2 with
                            | String c3 _ =>
                                if negb (cont c3) then (RuneError, 1%nat)
                                else (Z.lor (Z.shiftl (Z.land b0 0x07) 18)
                                        (Z.lor (Z.shiftl (low6 c1) 12)
                                           (Z.lor (Z.shiftl (low6 c2) 6) (low6 c3))),
                                      4%nat)
                            | EmptyString => (RuneError, 1%nat)
                            end
                   | EmptyString => (RuneError, 1%nat)
                   end
          | EmptyString => (RuneError, 1%nat)
          end
      end
  end.

End UTF8.

(** ** Go [path/filepath.Match] (Unix: '\' escapes, no Windows rules)

    The result is [Some b] for [(b, nil)] and [None] for
    [(false, ErrBadPattern)].  The loops of the Go code are written with
    fuel: every iteration consumes at least one byte of the pattern, so a
    fuel of one more than the pattern length is never exhausted. *)

Module Glob.
Import UTF8.

Definition is_empty (s : string) : bool :=
  match s with EmptyString => true | _ => false end.

(** [s[n:]] *)
Fixpoint drop (n : nat) (s : string) : string :=
  match n, s with
  | O, _ => s
  | S n', String _ r => drop n' r
  | S _, EmptyString => EmptyString
  end.

Fixpoint strip_stars (p : string) : bool * string :=
  match p with
  | String "*" r => (true, snd (strip_stars r))
  | _ => (false, p)
  end.

(** The [Scan] loop of [scanChunk]: up to the first '*' outside a
    character class; a '\' takes the next byte along with it. *)
Fixpoint scan (inrange : bool) (p : string) : string * string :=
  match p with
  | EmptyString => (EmptyString, EmptyString)
  | String c r =>
      if char_eqb c "\" then
        match r with
        | EmptyString => (String c EmptyString, EmptyString)
        | String d r' => let '(ch, rest) := scan inrange r' in (String c (String d ch), rest)
        end
      else if char_eqb c "[" then let '(ch, rest) := scan true r in (String c ch, rest)
      else if char_eqb c "]" then let '(ch, rest) := scan false r in (String c ch, rest)
      else if char_eqb c "*" && negb inrange then (EmptyString, p)
      else let '(ch, rest) := scan inrange r in (String c ch, rest)
  end.

(** [scanChunk pattern = (star, chunk, rest)] *)
Definition scanChunk (p : string) : bool * string * string :=
  let '(star, p') := strip_stars p in
  let '(chunk, rest) := scan false p' in
  (star, chunk, rest).

(** [getEsc]: one (possibly escaped) rune of a character class. *)
Definition getEsc (chunk : string) : option (Z * string) :=
  match chunk with
  | EmptyString => None
  | String c r =>
      if char_eqb c "-" || char_eqb c "]" then None else
      let chunk' := if char_eqb c "\" then r else chunk in
      match chunk' with
      | EmptyString => None
      | _ =>
          let '(rn, n) := DecodeRuneInString chunk' in
          let nchunk := drop n chunk' in
          if Z.eqb rn RuneError && Nat.eqb n 1 then None
          else if is_empty nchunk then None
          else Some (rn, nchunk)
      end
  end.

(** The range loop of a character class: [Some (match, chunk)] after the
    closing ']'. *)
Fixpoint ranges (fuel : nat) (chunk : string) (r : Z) (nrange_pos matched : bool)
  : option (bool * string) :=
  match fuel with
  | O => None
  | S f =>
      match chunk with
      | String "]" rest => if nrange_pos then Some (matched, rest) else None
      | _ =>
          match getEsc chunk with
          | None => None
          | Some (lo, chunk1) =>
              match chunk1 with
              | String "-" chunk2 =>
                  match getEsc chunk2 with
                  | None => None
                  | Some (hi, chunk3) =>
                      ranges f chunk3 r true (matched || (Z.leb lo r && Z.leb r hi))
                  end
              | _ => ranges f chunk1 r true (matched || (Z.leb lo r && Z.leb r lo))
              end
          end
      end
  end.

(** [matchChunk chunk s]: [Some (Some rest)] for [(rest, true, nil)],
    [Some None] for [("", false, nil)], [None] for an error. *)
Fixpoint match_chunk (fuel : nat) (chunk s : string) (failed : bool)
  : option (option string) :=
  match fuel with
  | O => None
  | S f =>
      match chunk with
      | EmptyString => Some (if failed then None else Some s)
      | String c crest =>
          let failed := failed || is_empty s in
          if char_eqb c "[" then
            let '(r, s') :=
              if failed then (0%Z, s)
              else let '(r, n) := DecodeRuneInString s in (r, drop n s) in
            let '(negated, chunk1) :=
              match crest with
              | String "^" c' => (true, c')
              | _ => (false, crest)
              end in
            match ranges (S (String.length chunk1)) chunk1 r false false with
            | None => None
            | Some (m, chunk2) => match_chunk f chunk2 s' (failed || Bool.eqb m negated)
            end
          else if char_eqb c "?" then
            if failed then match_chunk f crest s failed
            else match s with
                 | String c0 _ =>
                     let '(_, n) := DecodeRuneInString s in
                     match_chunk f crest (drop n s) (char_eqb c0 "/")
                 | EmptyString => None
                 end
          else
            let lit :=
              if char_eqb c "\" then
                match crest with
                | EmptyString => None
                | String d crest' => Some (d, crest')
                end
              else Some (c, crest) in
            match lit with
            | None => None
            | Some (d, crest') =>
                if failed then match_chunk f crest' s failed
                else match s with
                     | String c0 s0 => match_chunk f crest' s0 (negb (char_eqb d c0))
                     | EmptyString => None
                     end
            end
      end
  end.

Definition matchChunk (chunk s : string) : option (option string) :=
  match_chunk (S (String.length chunk)) chunk s false.

(** The loop after a star: retry the chunk after skipping [i+1] bytes,
    never skipping a '/'. *)
Fixpoint star_scan (chunk : string) (last : bool) (name : string)
  : option (option string) :=
  match name with
  | EmptyString => Some None
  | String c r =>
      if char_eqb c "/" then Some None else
      match matchChunk chunk r with
      | Some (Some t) => if last && negb (is_empty t) then star_scan chunk last r
                         else Some (Some t)
      | Some None => star_scan chunk last r
      | None => None
      end
  end.

(** The syntax check of the rest of the pattern before returning false. *)
Fixpoint check_rest (fuel : nat) (pattern : string) : option bool :=
  match fuel with
  | O => None
  | S f =>
      match pattern with
      | EmptyString => Some false
      | _ =>
          let '(_, chunk, rest) := scanChunk pattern in
          match matchChunk chunk EmptyString with
          | None => None
          | Some _ => check_rest f rest
          end
      end
  end.

Fixpoint go_match (fuel : nat) (pattern name : string) : option bool :=
  match fuel with
  | O => None
  | S f =>
      match pattern with
      | EmptyString => Some (is_empty name)
      | _ =>
          let '(star, chunk, rest) := scanChunk pattern in
          if star && is_empty chunk then Some (negb (ContainsChar name "/")) else
          let fallback :=
            match (if star then star_scan chunk (is_empty rest) name else Some None) with
            | None => None
            | Some (Some t) => go_match f rest t
            | Some None => check_rest (S (String.length rest)) rest
            end in
          match matchChunk chunk name with
          | Some (Some t) =>
              if is_empty t || negb (is_empty rest) then go_match f rest t else fallback
          | Some None => fallback
          | None => None
          end
      end
  end.

(** [filepath.Match pattern name] *)
Definition Match (pattern name : string) : option bool :=
  go_match (S (String.length pattern)) pattern name.

(** [matched, _ := filepath.Match(pattern, name)]: an error reads as no match. *)
Definition matched_of (r : option bool) : bool :=
  match r with Some b => b | None => false end.

End Glob.
Import Glob.

(** ** The pattern matcher ([matchesGitIgnorePattern], src/main.go) *)

Section Matcher.

(** [isDirectory path]: [os.Stat(path)] succeeds and reports a directory.
    The path is the relative path the matcher receives, so [os.Stat]
    resolves it against the process's working directory. *)
Variable isDirectory : string -> bool.

(** The glob string the wildcard branch builds from the pattern. *)
Definition regexPatternOf (pattern : string) : string :=
  let rp1 := ReplaceAllChar pattern "." "\." in
  let rp2 := ReplaceAllChar rp1 "*" ".*" in
  let rp3 := ReplaceAllChar rp2 "?" "." in
  let rp4 := if negb (HasPrefix pattern "*") then "^" ++ rp3 else rp3 in
  if negb (HasSuffix pattern "*") then rp4 ++ "$" else rp4.

Definition matchesGitIgnorePattern (path pattern0 : string) : bool :=
  let pattern1 := FilePath.ToSlash pattern0 in
  let isDirOnly := HasSuffix pattern1 "/" in
  let pattern := if isDirOnly then TrimSuffixSlash pattern1 else pattern1 in
  let isDir := HasSuffix path "/" || isDirectory path in
  if isDirOnly && negb isDir then false else
  if ContainsChar pattern "*" then
    let regexPattern := regexPatternOf pattern in
    if matched_of (Match regexPattern path) then true
    else existsb (fun part => matched_of (Match regexPattern part)) (SplitChar path "/")
  else if String.eqb pattern (FilePath.Base path) then true
  else if String.eqb pattern path then true
  else matched_of (Match pattern path).

End Matcher.

(** ** Ignore sets ([isPathIgnored], [getIgnorePatterns], [readPewcFile]) *)

Inductive error :=
| ErrPewc                 (* reading .pewc failed for a reason other than absence *)
| ErrLstat (p : string)   (* [os.Lstat] of a walked entry failed *)
| ErrReadDir (p : string) (* listing a directory failed *)
| ErrOpen (p : string)    (* [os.Open] failed *)
| ErrRead (p : string).   (* the first [Read] failed with something other than EOF *)

Inductive res (A : Type) : Type :=
| Ok : A -> res A
| Err : error -> res A.
Arguments Ok {A} _.
Arguments Err {A} _.

(** Outcome of [os.ReadFile]. *)
Inductive ReadFileResult :=
| RFContent (content : string)
| RFNotExist                  (* [os.IsNotExist(err)] *)
| RFError.                    (* any other error *)

Definition newline : ascii := "010"%char.

Definition defaultIgnorePatterns : list string :=
  [".*"; "node_modules/"; "target/"; "dist/"; "build/"; "bin/"; "pkg/"; ".pewc"; ".git/"].

Section Resolver.

(** The file system as [os.ReadFile] sees it, [filepath.Join], and
    [strings.TrimSpace] (Unicode white space, left abstract). *)
Variable ReadFile : string -> ReadFileResult.
Variable Join : string -> string -> string.
Variable TrimSpace : string -> string.

(** The [for _, line := range lines] loop of [readPewcFile]. *)
Fixpoint pewcLoop (lines : list string) (patterns : list string) : list string :=
  match lines with
  | [] => patterns
  | line0 :: rest =>
      let line := TrimSpace line0 in
      if String.eqb line "" || HasPrefix line "#" then pewcLoop rest patterns
      else pewcLoop rest (patterns ++ [line])%list
  end.

Definition readPewcFile (rootDir : string) : res (list string) :=
  match ReadFile (Join rootDir ".pewc") with
  | RFNotExist => Ok []
  | RFError => Err ErrPewc
  | RFContent content => Ok (pewcLoop (SplitChar content newline) [])
  end.

Definition getIgnorePatterns (rootDir : string) (noDefaultIgnores : bool)
  : res (list string) :=
  let patterns := if negb noDefaultIgnores then defaultIgnorePatterns else [] in
  match readPewcFile rootDir with
  | Err e => Err e
  | Ok pewcPatterns => Ok (patterns ++ pewcPatterns)%list
  end.

End Resolver.

Section Ignored.

Variable isDirectory : string -> bool.
(** [filepath.Rel(basepath, targpath)]; [None] when it fails. *)
Variable Rel : string -> string -> option string.

Definition isPathIgnored (path rootDir : string) (patterns : list string) : bool :=
  match patterns with
  | [] => false
  | _ =>
      let relPath := match Rel rootDir path with Some r => r | None => path end in
      let relPath := FilePath.ToSlash relPath in
      existsb (fun pattern => matchesGitIgnorePattern isDirectory relPath pattern) patterns
  end.

End Ignored.

(** ** The content classifier ([isBinaryContent], [verifyTextContent], [isTextFile]) *)

Module Classifier.
Import Byte.

Definition binarySignatures : list (list byte) :=
  [ [x7f; x45; x4c; x46];   (* ELF *)
    [x4d; x5a];             (* Windows EXE *)
    [x50; x4b; x03; x04];   (* ZIP *)
    [xff; xd8; xff];        (* JPEG *)
    [x89; x50; x4e; x47];   (* PNG *)
    [x25; x50; x44; x46];   (* PDF *)
    [x1f; x8b] ].           (* GZIP *)

(** The inner [for i := range sig] loop: [content[i] == sig[i]] for all [i]. *)
Fixpoint sig_match (sig content : list byte) : bool :=
  match sig, content with
  | [], _ => true
  | s :: ss, c :: cs => Byte.eqb s c && sig_match ss cs
  | _ :: _, [] => false
  end.

Definition float_of_nat (n : nat) : float := PrimFloat.of_uint63 (Uint63.of_Z (Z.of_nat n)).

(** The float64 nearest to 0.3, the constant of the Go source. *)
Definition point3 : float := 0x1.3333333333333p-2%float.

(** [float64(nonAsciiCount)/float64(len(content)) > 0.3] *)
Definition ratio_gt (nonAsciiCount len : nat) : bool :=
  PrimFloat.ltb point3 (PrimFloat.div (float_of_nat nonAsciiCount) (float_of_nat len)).

(** The counting loop: [None] when it returns [true] early on a second
    zero byte, otherwise [Some nonAsciiCount]. *)
Fixpoint count_loop (content : list byte) (nullCount nonAsciiCount : nat) : option nat :=
  match content with
  | [] => Some nonAsciiCount
  | b :: r =>
      if Byte.eqb b x00 then
        if (1 <? S nullCount)%nat then None else count_loop r (S nullCount) nonAsciiCount
      else if (127 <? Byte.to_nat b)%nat then count_loop r nullCount (S nonAsciiCount)
      else count_loop r nullCount nonAsciiCount
  end.

Definition isBinaryContent (content : list byte) : bool :=
  if (2 <=? length content)%nat &&
     existsb (fun sig => (length sig <=? length content)%nat && sig_match sig content)
             binarySignatures
  then true
  else match count_loop content 0 0 with
       | None => true
       | Some nonAsciiCount =>
           if (0 <? length content)%nat then ratio_gt nonAsciiCount (length content)
           else false
       end.

End Classifier.
Import Classifier.

(** What [os.Open] followed by one [file.Read] of a 512-byte buffer sees. *)
Inductive OpenResult :=
| OpenFails                      (* [os.Open] returns an error *)
| ReadFails                      (* [Read] returns an error other than [io.EOF] *)
| Opened (bytes : list Byte.byte). (* the file's bytes; [Read] returns the first 512 *)

Definition textExtensions : list string :=
  [".txt"; ".md"; ".go"; ".py"; ".js"; ".html"; ".css"; ".json"; ".xml"; ".yaml";
   ".yml"; ".sh"; ".bash"; ".c"; ".cpp"; ".h"; ".hpp"; ".rs"; ".ts"; ".java";
   ".rb"; ".php"; ".pl"; ".swift"; ".kt"; ".sql"; ".r"; ".conf"; ".ini"; ".csv";
   ".tsv"; ".bat"; ".ps1"; ".lua"].

Section TextFile.

Variable Open : string -> OpenResult.
(** [strings.ToLower] (Unicode case mapping, left abstract). *)
Variable ToLower : string -> string.

Definition verifyTextContent (path : string) : res bool :=
  match Open path with
  | OpenFails => Err (ErrOpen path)
  | ReadFails => Err (ErrRead path)
  | Opened bytes => Ok (negb (isBinaryContent (firstn 512 bytes)))
  end.

Definition isTextFile (path : string) : res bool :=
  let ext := ToLower (FilePath.Ext path) in
  if existsb (String.eqb ext) textExtensions then verifyTextContent path
  else verifyTextContent path.

End TextFile.

(** ** [filepath.Walk] and [collectTextFiles]

    A directory tree as [os.Lstat] and directory listing see it.  The
    listing of a directory is in the order [readDirNames] returns it
    (sorted by name). *)

Inductive entry :=
| EFile (name : string)                          (* Lstat succeeds, not a directory *)
| EDir (name : string) (listing : option (list entry)) (* [None]: listing fails *)
| EBroken (name : string).                       (* Lstat fails *)

Definition entry_name (e : entry) : string :=
  match e with EFile n | EDir n _ | EBroken n => n end.

Definition entry_is_dir (e : entry) : bool :=
  match e with EDir _ _ => true | _ => false end.

(** What a [WalkFunc] returns. *)
Inductive walk_ret := WNil | WSkipDir | WErr (e : error).

Section Walk.

Variable Join : string -> string -> string.
Context {S : Type}.
(** [walkFn(path, info, err)] with the caller's accumulated state; [info]
    is [Some isDir] when Lstat succeeded and [None] for a nil [FileInfo]. *)
Variable walkFn : string -> option bool -> option error -> S -> walk_ret * S.

(** The [for _, name := range names] loop of [walk], given [walk] itself. *)
Fixpoint walk_children (w : string -> entry -> S -> walk_ret * S)
  (path : string) (cs : list entry) (st : S) : walk_ret * S :=
  match cs with
  | [] => (WNil, st)
  | c :: cs' =>
      let filename := Join path (entry_name c) in
      match c with
      | EBroken _ =>
          let '(r, st') := walkFn filename None (Some (ErrLstat filename)) st in
          match r with
          | WErr e => (WErr e, st')
          | _ => walk_children w path cs' st'
          end
      | _ =>
          let '(r, st') := w filename c st in
          match r with
          | WNil => walk_children w path cs' st'
          | WSkipDir => if entry_is_dir c then walk_children w path cs' st' else (WSkipDir, st')
          | WErr e => (WErr e, st')
          end
      end
  end.

(** [walk(path, info, walkFn)], called after a successful Lstat. *)
Fixpoint walk (path : string) (node : entry) (st : S) : walk_ret * S :=
  match node with
  | EFile _ => walkFn path (Some false) None st
  | EBroken _ => walkFn path None (Some (ErrLstat path)) st
  | EDir _ listing =>
      let err := match listing with None => Some (ErrReadDir path) | Some _ => None end in
      let '(err1, st1) := walkFn path (Some true) err st in
      match listing, err1 with
      | Some names, WNil => walk_children walk path names st1
      | _, _ => (err1, st1)
      end
  end.

(** [filepath.Walk(root, walkFn)] *)
Definition Walk (root : string) (rootNode : entry) (st : S) : walk_ret * S :=
  let '(r, st') :=
    match rootNode with
    | EBroken _ => walkFn root None (Some (ErrLstat root)) st
    | _ => walk root rootNode st
    end in
  match r with
  | WSkipDir => (WNil, st')
  | _ => (r, st')
  end.

End Walk.

(** [sort.Strings]: byte-wise lexicographic order. *)
Fixpoint insert_string (x : string) (l : list string) : list string :=
  match l with
  | [] => [x]
  | y :: l' => if String.leb x y then x :: l else y :: insert_string x l'
  end.

Fixpoint sort_strings (l : list string) : list string :=
  match l with
  | [] => []
  | x :: l' => insert_string x (sort_strings l')
  end.

Section Collect.

Variable isDirectory : string -> bool.
Variable Rel : string -> string -> option string.
Variable Join : string -> string -> string.
Variable Open : string -> OpenResult.
Variable ToLower : string -> string.

(** The closure passed to [filepath.Walk] by [collectTextFiles]; its state
    is [fileList]. *)
Definition collectFn (rootDir : string) (ignorePatterns : list string)
  (path : string) (info : option bool) (err : option error) (fileList : list string)
  : walk_ret * list string :=
  match err with
  | Some e => (WErr e, fileList)
  | None =>
      let isDir := match info with Some d => d | None => false end in
      if isPathIgnored isDirectory Rel path rootDir ignorePatterns then
        ((if isDir then WSkipDir else WNil), fileList)
      else if isDir then (WNil, fileList)
      else match isTextFile Open ToLower path with
           | Err _ => (WNil, fileList)              (* warning on stderr *)
           | Ok true => (WNil, fileList ++ [path])%list
           | Ok false => (WNil, fileList)           (* "Skipping binary file" *)
           end
  end.

Definition collectTextFiles (rootDir : string) (ignorePatterns : list string)
  (rootNode : entry) : res (list string) :=
  let '(r, fileList) := Walk Join (collectFn rootDir ignorePatterns) rootDir rootNode [] in
  match r with
  | WErr e => Err e
  | _ => Ok (sort_strings fileList)
  end.

End Collect.

(** ** Definitions that follow the spec's words, to compare the code with *)

Module SpecSide.
Import Byte.

(** §4.1 step 3: test the full path against the glob, then each
    '/'-delimited segment. *)
Definition wildcard_procedure (glob path : string) : bool :=
  matched_of (Match glob path)
  || existsb (fun part => matched_of (Match glob part)) (SplitChar path "/").

(** §4.2: the patterns contributed by the text of a rules file. *)
Definition pewc_patterns (TrimSpace : string -> string) (content : string) : list string :=
  filter (fun line => negb (String.eqb line "" || HasPrefix line "#"))
         (map TrimSpace (SplitChar content newline)).

Definition resolved_defaults (useDefaults : bool) : list string :=
  if useDefaults then defaultIgnorePatterns else [].

(** §4.3: binary iff a signature prefix, two zero bytes, or more than 30%
    of the bytes above 127. *)
Definition has_prefix_bytes (sig content : list byte) : bool :=
  if list_eq_dec Byte.byte_eq_dec (firstn (length sig) content) sig then true else false.

Definition count_zero (content : list byte) : nat :=
  length (filter (fun b => Byte.eqb b x00) content).

Definition count_high (content : list byte) : nat :=
  length (filter (fun b => (127 <? Byte.to_nat b)%nat) content).

Definition spec_isBinary (content : list byte) : bool :=
  existsb (fun sig => has_prefix_bytes sig content) binarySignatures
  || (2 <=? count_zero content)%nat
  || ((0 <? length content)%nat && (3 * length content <? 10 * count_high content)%nat).

Definition printable_or_zero (b : byte) : bool :=
  Byte.eqb b x00 || ((32 <=? Byte.to_nat b)%nat && (Byte.to_nat b <=? 126)%nat).

(** Exhaustive comparison of the float64 ratio test with the exact one,
    for every [0 <= nonAscii <= len <= 512]; the counters run in [Z]
    alongside a [nat] fuel. *)
Definition ratioZ (na len : Z) : bool :=
  PrimFloat.ltb point3
    (PrimFloat.div (PrimFloat.of_uint63 (Uint63.of_Z na)) (PrimFloat.of_uint63 (Uint63.of_Z len))).

Definition ratio_ok (na len : Z) : bool :=
  Bool.eqb (ratioZ na len) (Z.ltb (3 * len) (10 * na)).

Fixpoint check_na (k : nat) (na len : Z) : bool :=
  match k with
  | O => ratio_ok na len
  | S k' => ratio_ok na len && check_na k' (na - 1) len
  end.

Fixpoint check_len (k : nat) (len : Z) : bool :=
  match k with
  | O => true
  | S k' => check_na k len len && check_len k' (len - 1)
  end.

End SpecSide.
Import SpecSide.

(** §4.4: the eligible files of a tree, in pre-order: pruned at ignored
    directories, skipped when ignored or when classification does not
    say "text". *)
Section Eligible.

Variable isDirectory : string -> bool.
Variable Rel : string -> string -> option string.
Variable Join : string -> string -> string.
Variable Open : string -> OpenResult.
Variable ToLower : string -> string.
Variable rootDir : string.
Variable ignorePatterns : list string.

(** The children of a listed directory, each under [Join path name]. *)
Fixpoint eligible_children (e : string -> entry -> list string) (path : string)
  (cs : list entry) : list string :=
  match cs with
  | [] => []
  | c :: cs' => (e (Join path (entry_name c)) c ++ eligible_children e path cs')%list
  end.

Fixpoint eligible (path : string) (node : entry) : list string :=
  match node with
  | EFile _ =>
      if isPathIgnored isDirectory Rel path rootDir ignorePatterns then []
      else match isTextFile Open ToLower path with
           | Ok true => [path]
           | _ => []
           end
  | EDir _ (Some cs) =>
      if isPathIgnored isDirectory Rel path rootDir ignorePatterns then []
      else eligible_children eligible path cs
  | EDir _ None => []
  | EBroken _ => []
  end.

(** Every directory [filepath.Walk] reaches can be listed and every entry
    it reaches can be Lstat'ed.  It reaches the root and every entry of a
    non-ignored directory it reaches; an ignored directory is still listed
    (before the callback) but its entries are not reached. *)
Fixpoint walk_ok (path : string) (node : entry) : bool :=
  match node with
  | EFile _ => true
  | EBroken _ => false
  | EDir _ None => false
  | EDir _ (Some cs) =>
      isPathIgnored isDirectory Rel path rootDir ignorePatterns
      || forallb (fun c => walk_ok (Join path (entry_name c)) c) cs
  end.

End Eligible.


(** A pattern with none of Go's glob metacharacters. *)
Definition no_glob_meta (q : string) : bool :=
  negb (ContainsChar q "*" || ContainsChar q "?" || ContainsChar q "[" || ContainsChar q "\").

(** Induction over [entry] with the hypothesis on every listed child. *)
Definition entry_ind2 (P : entry -> Prop)
  (Hfile : forall n, P (EFile n))
  (Hdir : forall n cs, Forall P cs -> P (EDir n (Some cs)))
  (Hunlisted : forall n, P (EDir n None))
  (Hbroken : forall n, P (EBroken n)) : forall e, P e :=
  fix F (e : entry) : P e :=
    match e as e0 return P e0 with
    | EFile n => Hfile n
    | EDir n (Some cs) =>
        Hdir n cs ((fix G (l : list entry) : Forall P l :=
                      match l as l0 return Forall P l0 with
                      | [] => Forall_nil P
                      | c :: l' => Forall_cons c (F c) (G l')
                      end) cs)
    | EDir n None => Hunlisted n
    | EBroken n => Hbroken n
    end.

(** ** Output: sanitising, Markdown assembly and the directory tree *)

(** A one-byte string holding '\n'. *)
Definition nl : string := String newline EmptyString.

(** The bytes [sanitizeFileContent] leaves out: below 32 and none of
    '\n', '\t', '\r'. *)
Definition dropped_control (c : ascii) : bool :=
  (nat_of_ascii c <? 32)%nat && negb (char_eqb c newline)
  && negb (char_eqb c "009"%char) && negb (char_eqb c "013"%char).

(** [sanitizeFileContent], byte by byte over [string(content)]. *)
Fixpoint sanitizeFileContent (content : string) : string :=
  match content with
  | EmptyString => EmptyString
  | String c r =>
      if dropped_control c then sanitizeFileContent r
      else String c (sanitizeFileContent r)
  end.

(** [strings.ReplaceAll] with a three-byte [old]: the leftmost
    occurrences, without overlap, in one pass. *)
Fixpoint ReplaceAll3 (s : string) (o1 o2 o3 : ascii) (new : string) : string :=
  match s with
  | EmptyString => EmptyString
  | String a r =>
      match r with
      | String b (String c r') =>
          if char_eqb a o1 && char_eqb b o2 && char_eqb c o3
          then new ++ ReplaceAll3 r' o1 o2 o3 new
          else String a (ReplaceAll3 r o1 o2 o3 new)
      | _ => String a (ReplaceAll3 r o1 o2 o3 new)
      end
  end.

(** [sanitizeContent]: U+251C (E2 94 9C), U+2500 (E2 94 80) and U+2514
    (E2 94 94) in UTF-8, replaced in that order. *)
Definition sanitizeContent (content : string) : string :=
  let content := ReplaceAll3 content "226" "148" "156" "|" in
  let content := ReplaceAll3 content "226" "148" "128" "-" in
  ReplaceAll3 content "226" "148" "148" "`".

(** [strings.TrimPrefix s "."] *)
Definition TrimPrefixDot (s : string) : string :=
  match s with
  | String c r => if char_eqb c "." then r else s
  | EmptyString => s
  end.

(** The code fence language of [processFiles] and [generateMarkdown]. *)
Definition fenceLang (file : string) : string :=
  let ext := TrimPrefixDot (FilePath.Ext file) in
  if String.eqb ext "" then "text" else ext.

(** The last byte of a buffer, if any. *)
Fixpoint last_byte (s : string) : option ascii :=
  match s with
  | EmptyString => None
  | String c EmptyString => Some c
  | String _ r => last_byte r
  end.

(** One file's section, written to the buffer [buf]: heading, opening
    fence, sanitised content, a newline when the buffer does not end in
    one, closing fence. *)
Definition writeSection (buf title file content : string) : string :=
  let buf := buf ++ ("## " ++ title ++ nl ++ nl) in
  let buf := buf ++ ("```" ++ fenceLang file ++ nl) in
  let buf := buf ++ sanitizeFileContent content in
  let buf := match last_byte buf with
             | Some c => if negb (char_eqb c newline) then buf ++ nl else buf
             | None => buf
             end in
  buf ++ ("```" ++ nl ++ nl).

Section ProcessFiles.

Variable Open : string -> OpenResult.
Variable ToLower : string -> string.
(** [os.ReadFile] *)
Variable ReadFile : string -> ReadFileResult.

(** The [for _, file := range files] loop of [processFiles]. *)
Fixpoint processFiles_loop (files : list string) (buf : string) : string :=
  match files with
  | [] => buf
  | file :: rest =>
      match isTextFile Open ToLower file with
      | Err _ => processFiles_loop rest buf          (* warning on stderr *)
      | Ok false => processFiles_loop rest buf       (* "Skipping binary file" *)
      | Ok true =>
          match ReadFile file with
          | RFContent content => processFiles_loop rest (writeSection buf file file content)
          | _ => processFiles_loop rest buf          (* error on stderr *)
          end
      end
  end.

Definition processFiles (files : list string) : res string :=
  Ok (processFiles_loop files ("# Source Code Files" ++ nl ++ nl)).

End ProcessFiles.

Section Markdown.

Variable Rel : string -> string -> option string.
Variable ReadFile : string -> ReadFileResult.

(** The [for _, file := range files] loop of [generateMarkdown], with the
    buffer and the [textFiles] counter. *)
Fixpoint markdown_loop (dumpDir : string) (files : list string) (buf : string)
  (textFiles : nat) : string * nat :=
  match files with
  | [] => (buf, textFiles)
  | file :: rest =>
      match Rel dumpDir file with
      | None => markdown_loop dumpDir rest buf textFiles
      | Some relPath =>
          match ReadFile file with
          | RFContent content =>
              markdown_loop dumpDir rest (writeSection buf relPath file content) (S textFiles)
          | _ => markdown_loop dumpDir rest buf textFiles
          end
      end
  end.

Definition generateMarkdown (dumpDir : string) (files : list string) (tree : string) : string :=
  let buf := "# Directory Structure" ++ nl ++ nl in
  let buf := buf ++ ("```" ++ nl) in
  let buf := buf ++ tree in
  let buf := buf ++ ("```" ++ nl ++ nl) in
  let buf := buf ++ ("# File Contents" ++ nl ++ nl) in
  let '(buf, textFiles) := markdown_loop dumpDir files buf 0 in
  if Nat.eqb textFiles 0 then buf ++ ("No text files found in the directory." ++ nl)
  else buf.

End Markdown.

(** [sort.Slice] of the visible entries by name: entry names within one
    directory are distinct, so every sort gives this order. *)
Fixpoint insert_entry (x : entry) (l : list entry) : list entry :=
  match l with
  | [] => [x]
  | y :: l' => if String.ltb (entry_name x) (entry_name y) then x :: l
               else y :: insert_entry x l'
  end.

Fixpoint sort_entries (l : list entry) : list entry :=
  match l with
  | [] => []
  | x :: l' => insert_entry x (sort_entries l')
  end.

(** Number of nodes of a tree: fuel enough for [printDir]. *)
Fixpoint entry_size (e : entry) : nat :=
  match e with
  | EDir _ (Some cs) => S (list_sum (map entry_size cs))
  | _ => 1
  end.

(** What [os.ReadDir] learns of an entry whose Lstat fails.  When the
    directory listing carries the entry's type, [os.ReadDir] takes it from
    there and does not Lstat the entry; otherwise it Lstats the entry, and
    drops it when that reports that it no longer exists, or fails. *)
Inductive dirent_type :=
| DTDir      (* the listing reports a directory *)
| DTOther    (* the listing reports another type *)
| DTGone     (* no type in the listing; Lstat: does not exist, entry skipped *)
| DTFail.    (* no type in the listing; Lstat fails otherwise *)

Section Tree.

Variable isDirectory : string -> bool.
Variable Rel : string -> string -> option string.
Variable Join : string -> string -> string.
(** For each path whose Lstat fails, what its directory listing says. *)
Variable direntType : string -> dirent_type.
Variable rootDir : string.
Variable ignorePatterns : list string.

(** The entries [os.ReadDir(dir)] returns for a listed directory, or the
    error of the first entry whose type it has to Lstat and cannot. *)
Fixpoint readDir (dir : string) (listing : list entry) : res (list entry) :=
  match listing with
  | [] => Ok []
  | c :: rest =>
      match c with
      | EBroken n =>
          match direntType (Join dir n) with
          | DTFail => Err (ErrLstat (Join dir n))
          | DTGone => readDir dir rest
          | _ => match readDir dir rest with Ok l => Ok (c :: l) | Err e => Err e end
          end
      | _ => match readDir dir rest with Ok l => Ok (c :: l) | Err e => Err e end
      end
  end.

(** [file.IsDir()] of an entry [os.ReadDir(dir)] returned. *)
Definition dirent_is_dir (dir : string) (c : entry) : bool :=
  match c with
  | EBroken n => match direntType (Join dir n) with DTDir => true | _ => false end
  | _ => entry_is_dir c
  end.

(** The [for i, file := range visibleFiles] loop of [printDir], given
    [printDir] itself; [Some e] is the error returned. *)
Fixpoint printDir_loop (pd : string -> entry -> string -> string -> option error * string)
  (dir prefix : string) (files : list entry) (buf : string) : option error * string :=
  match files with
  | [] => (None, buf)
  | file :: rest =>
      let path := Join dir (entry_name file) in
      let isLast := match rest with [] => true | _ => false end in
      let branch := if isLast then "`-- " else "|-- " in
      let newPrefix := if isLast then prefix ++ "    " else prefix ++ "|   " in
      let buf := buf ++ (prefix ++ branch ++ entry_name file) in
      if dirent_is_dir dir file then
        match pd path file newPrefix (buf ++ ("/" ++ nl)) with
        | (Some e, buf) => (Some e, buf)
        | (None, buf) => printDir_loop pd dir prefix rest buf
        end
      else printDir_loop pd dir prefix rest (buf ++ nl)
  end.

(** [printDir dir prefix buf]; [node] is what is found at [dir].
    [os.ReadDir] fails on an unlistable directory, on a non-directory and
    on a path whose Lstat fails (opening it resolves the path as Lstat
    does). *)
Fixpoint printDir (fuel : nat) (dir : string) (node : entry) (prefix buf : string)
  : option error * string :=
  match fuel with
  | O => (None, buf)
  | S f =>
      match node with
      | EDir _ (Some listing) =>
          match readDir dir listing with
          | Err e => (Some e, buf)
          | Ok files =>
              let visibleFiles :=
                filter (fun file => negb (isPathIgnored isDirectory Rel (Join dir (entry_name file))
                                                         rootDir ignorePatterns)) files in
              match visibleFiles with
              | [] => (None, buf)
              | _ => printDir_loop (printDir f) dir prefix (sort_entries visibleFiles) buf
              end
          end
      | _ => (Some (ErrReadDir dir), buf)
      end
  end.

(** [generateTree rootDir ignorePatterns]: the buffer and the error. *)
Definition generateTree (rootNode : entry) : string * option error :=
  let buf := FilePath.Base rootDir ++ ("/" ++ nl) in
  let '(err, buf) := printDir (entry_size rootNode) rootDir rootNode "" buf in
  (buf, err).

End Tree.

(** ** [processDirectory] *)


Section ProcessDirectory.

(** [filepath.Abs]; [None] when it fails. *)
Variable Abs : string -> option string.
(** [os.IsNotExist] of the error of [os.Stat]. *)
Variable StatNotExist : string -> bool.
Variable ReadFile : string -> ReadFileResult.
Variable Join : string -> string -> string.
Variable TrimSpace : string -> string.
Variable isDirectory : string -> bool.
Variable Rel : string -> string -> option string.
Variable Open : string -> OpenResult.
Variable ToLower : string -> string.
Variable direntType : string -> dirent_type.


End ProcessDirectory.

(** Spec-side views of the output functions. *)

(** A file of [generateMarkdown]'s list that gets a section. *)
Definition md_written (Rel : string -> string -> option string)
  (ReadFile : string -> ReadFileResult) (dumpDir file : string) : bool :=
  match Rel dumpDir file, ReadFile file with
  | Some _, RFContent _ => true
  | _, _ => false
  end.

(** A file of [processFiles]'s list that gets a section. *)
Definition pf_written (Open : string -> OpenResult) (ToLower : string -> string)
  (ReadFile : string -> ReadFileResult) (file : string) : bool :=
  match isTextFile Open ToLower file, ReadFile file with
  | Ok true, RFContent _ => true
  | _, _ => false
  end.

(** A closing fence on a line of its own, then a blank line. *)
Definition fence_close : string := nl ++ "```" ++ nl ++ nl.

(** Whether the three bytes [x y z] occur consecutively in [s]. *)
Fixpoint occurs3 (x y z : ascii) (s : string) : bool :=
  match s with
  | EmptyString => false
  | String a r =>
      match r with
      | String b (String c _) => char_eqb a x && char_eqb b y && char_eqb c z
      | _ => false
      end || occurs3 x y z r
  end.

(** Every directory the tree printer lists can be listed: the root, and
    each non-ignored subdirectory (as its listing reports it) of a listed
    directory; and no listed directory holds an entry whose type
    [os.ReadDir] must Lstat and cannot.  A non-ignored entry that its
    listing reports as a directory but whose Lstat fails cannot be listed. *)
Fixpoint tree_listable (isDirectory : string -> bool) (Rel : string -> string -> option string)
  (Join : string -> string -> string) (direntType : string -> dirent_type)
  (rootDir : string) (ignorePatterns : list string)
  (dir : string) (node : entry) : bool :=
  match node with
  | EDir _ (Some cs) =>
      forallb (fun c =>
        match c with
        | EBroken n =>
            match direntType (Join dir n) with
            | DTFail => false
            | DTDir => isPathIgnored isDirectory Rel (Join dir n) rootDir ignorePatterns
            | DTOther | DTGone => true
            end
        | _ =>
            isPathIgnored isDirectory Rel (Join dir (entry_name c)) rootDir ignorePatterns
            || negb (entry_is_dir c)
            || tree_listable isDirectory Rel Join direntType rootDir ignorePatterns
                 (Join dir (entry_name c)) c
        end) cs
  | _ => false
  end.

(** Number of '\n' bytes of a string. *)
Fixpoint count_nl (s : string) : nat :=
  match s with
  | EmptyString => 0
  | String c r => ((if char_eqb c newline then 1 else 0) + count_nl r)%nat
  end.

(** The entries the tree shows under a listed directory, at any depth: the
    non-ignored entries [os.ReadDir] returns for each listed directory,
    recursing into the non-ignored subdirectories. *)
Fixpoint visible_count (isDirectory : string -> bool) (Rel : string -> string -> option string)
  (Join : string -> string -> string) (direntType : string -> dirent_type)
  (rootDir : string) (ignorePatterns : list string)
  (dir : string) (node : entry) : nat :=
  match node with
  | EDir _ (Some cs) =>
      list_sum (map (fun c =>
        match c with
        | EBroken n =>
            match direntType (Join dir n) with
            | DTGone | DTFail => 0
            | DTDir | DTOther =>
                if isPathIgnored isDirectory Rel (Join dir n) rootDir ignorePatterns then 0 else 1
            end
        | _ =>
            if isPathIgnored isDirectory Rel (Join dir (entry_name c)) rootDir ignorePatterns then 0
            else S (if entry_is_dir c
                    then visible_count isDirectory Rel Join direntType rootDir ignorePatterns
                           (Join dir (entry_name c)) c
                    else 0)
        end) cs)
  | _ => 0
  end.

(** No entry name below [node] contains a '\n'. *)
Fixpoint names_no_nl (node : entry) : bool :=
  match node with
  | EDir _ (Some cs) =>
      forallb (fun c => negb (ContainsChar (entry_name c) newline) && names_no_nl c) cs
  | _ => true
  end.

(** * Theorems *)

(** ** C1 *)

(** C1: the pattern [*.log] is turned into the glob [.*\.log$], which
    matches none of [a.log], [dir/b.log], [dir/sub/c.log] (nor [a.logx]),
    whatever the directory test says. *)
Theorem star_log_matches_no_log_file (isDirectory : string -> bool) :
  matchesGitIgnorePattern isDirectory "a.log" "*.log" = false /\
  matchesGitIgnorePattern isDirectory "dir/b.log" "*.log" = false /\
  matchesGitIgnorePattern isDirectory "dir/sub/c.log" "*.log" = false /\
  matchesGitIgnorePattern isDirectory "a.logx" "*.log" = false.
Proof. vm_compute. repeat split. Qed.

(** ** C2 *)

Lemma SplitChar_no_sep (s : string) (sep : ascii) :
  ContainsChar s sep = false -> SplitChar s sep = [s].
Proof.
  induction s as [|c r IH]; simpl; [reflexivity|].
  intros H. apply orb_false_iff in H as [Hc Hr].
  rewrite Hc, (IH Hr). reflexivity.
Qed.

(** C2: the built-in pattern [.*] becomes the glob [^\..*], whose first
    byte is a literal '^': no single-segment path starting with '.' matches
    it, whatever the directory test says. *)
Theorem hidden_pattern_matches_no_dotted_name
  (isDirectory : string -> bool) (rest : string)
  (Hseg : ContainsChar rest "/" = false) :
  matchesGitIgnorePattern isDirectory (String "." rest) ".*" = false.
Proof.
  unfold matchesGitIgnorePattern.
  rewrite (SplitChar_no_sep (String "." rest) "/") by (simpl; exact Hseg).
  vm_compute. reflexivity.
Qed.

Lemma hidden_pattern_matches_no_dotted_name_witness :
  ContainsChar "git" "/" = false /\
  matchesGitIgnorePattern (fun _ => true) ".git" ".*" = false.
Proof.
  split; [reflexivity|].
  apply (hidden_pattern_matches_no_dotted_name (fun _ => true) "git"). reflexivity.
Defined.

(** ** C3 *)

(** C3: a pattern with '?' but no '*' does not take the wildcard branch:
    [b?c] does not match [a/bxc], although the segment [bxc] matches the
    glob [b?c], so the full-path-then-segments procedure accepts it. *)
Theorem question_only_pattern_skips_segment_fallback (isDirectory : string -> bool) :
  matchesGitIgnorePattern isDirectory "a/bxc" "b?c" = false /\
  wildcard_procedure "b?c" "a/bxc" = true.
Proof. vm_compute. split; reflexivity. Qed.

(** ** C4 *)

(** C4 (counterexample): [[a]] has neither '*' nor '?', is neither the
    base name of [a] nor [a], yet matches [a] through [filepath.Match]. *)
Lemma bracket_pattern_matches_beyond_equalities :
  ContainsChar "[a]" "*" = false /\ ContainsChar "[a]" "?" = false /\
  "[a]" <> FilePath.Base "a" /\ "[a]" <> "a" /\
  matchesGitIgnorePattern (fun _ => false) "a" "[a]" = true.
Proof.
  repeat split; try reflexivity; vm_compute; discriminate.
Qed.

Lemma scan_literal (inrange : bool) (q : string) :
  ContainsChar q "*" = false -> ContainsChar q "\" = false ->
  scan inrange q = (q, EmptyString).
Proof.
  revert inrange; induction q as [|c r IH]; intros inrange Hs Hb; [reflexivity|].
  simpl in Hs, Hb. apply orb_false_iff in Hs as [Hs1 Hs2].
  apply orb_false_iff in Hb as [Hb1 Hb2]. simpl.
  rewrite Hb1, Hs1. simpl.
  destruct (char_eqb c "[") eqn:E1; [rewrite (IH true Hs2 Hb2); reflexivity|].
  destruct (char_eqb c "]") eqn:E2; rewrite (IH _ Hs2 Hb2); reflexivity.
Qed.

Lemma match_chunk_literal (q s : string) (failed : bool) (fuel : nat) :
  no_glob_meta q = true -> (String.length q < fuel)%nat ->
  match_chunk fuel q s failed =
  Some (if failed || negb (HasPrefix s q) then None else Some (drop (String.length q) s)).
Proof.
  revert s failed fuel; induction q as [|c r IH]; intros s failed fuel Hq Hf.
  - destruct fuel as [|f]; [simpl in Hf; lia|]. simpl.
    destruct failed, s; reflexivity.
  - destruct fuel as [|f]; [simpl in Hf; lia|].
    unfold no_glob_meta in Hq; simpl in Hq.
    destruct (char_eqb c "*") eqn:E1; [discriminate|].
    destruct (char_eqb c "?") eqn:E2; [simpl in Hq; rewrite ?orb_true_r in Hq; discriminate|].
    destruct (char_eqb c "[") eqn:E3; [simpl in Hq; rewrite ?orb_true_r in Hq; discriminate|].
    destruct (char_eqb c "\") eqn:E4; [simpl in Hq; rewrite ?orb_true_r in Hq; discriminate|].
    simpl in Hq.
    assert (Hr : no_glob_meta r = true) by exact Hq.
    simpl in Hf.
    cbn [match_chunk]. rewrite E3, E2, E4.
    destruct (failed || is_empty s) eqn:Ef.
    + rewrite (IH s true f Hr ltac:(lia)).
      destruct failed; [reflexivity|].
      destruct s; [reflexivity|discriminate].
    + apply orb_false_iff in Ef as [-> Hs].
      destruct s as [|c0 s0]; [discriminate|].
      rewrite (IH s0 _ f Hr ltac:(lia)). simpl.
      destruct (char_eqb c c0); reflexivity.
Qed.

Lemma strip_stars_no_star (c : ascii) (r : string) :
  char_eqb c "*" = false -> strip_stars (String c r) = (false, String c r).
Proof.
  intros H. destruct c as [[] [] [] [] [] [] [] []]; try reflexivity; discriminate.
Qed.

Lemma scanChunk_literal (q : string) :
  q <> EmptyString -> no_glob_meta q = true -> scanChunk q = (false, q, EmptyString).
Proof.
  intros Hne Hq. destruct q as [|c r]; [congruence|].
  unfold no_glob_meta in Hq. apply negb_true_iff in Hq.
  apply orb_false_iff in Hq as [Hq Hb]. apply orb_false_iff in Hq as [Hq Hk].
  apply orb_false_iff in Hq as [Hs Hqm].
  unfold scanChunk.
  assert (Hc : char_eqb c "*" = false) by (simpl in Hs; apply orb_false_iff in Hs; tauto).
  rewrite (strip_stars_no_star c r Hc).
  rewrite (scan_literal false (String c r) Hs Hb). reflexivity.
Qed.

Lemma prefix_drop_eqb (q p : string) :
  HasPrefix p q && is_empty (drop (String.length q) p) = String.eqb q p.
Proof.
  revert p; induction q as [|c r IH]; intros p; destruct p as [|c0 p0]; try reflexivity.
  simpl. unfold char_eqb. rewrite <- IH.
  destruct (Ascii.eqb c c0) eqn:E.
  - apply Ascii.eqb_eq in E. subst. destruct (ascii_dec c0 c0); [reflexivity|congruence].
  - apply Ascii.eqb_neq in E. destruct (ascii_dec c c0); [congruence|reflexivity].
Qed.

Lemma Match_literal (q p : string) :
  no_glob_meta q = true -> Match q p = Some (String.eqb q p).
Proof.
  intros Hq. destruct q as [|c r].
  - destruct p; reflexivity.
  - unfold Match. cbn [go_match].
    rewrite (scanChunk_literal (String c r)) by (congruence || exact Hq).
    simpl andb. unfold matchChunk.
    rewrite (match_chunk_literal (String c r) p false) by (exact Hq || lia).
    rewrite <- prefix_drop_eqb. simpl orb.
    destruct (HasPrefix p (String c r)); simpl; [|reflexivity].
    rewrite orb_false_r. destruct (is_empty _); reflexivity.
Qed.

(** C4 (amended): for a pattern with no glob metacharacter ('*', '?', '[',
    '\') and no trailing '/', the matcher answers exactly "the pattern is
    [filepath.Base] of the path, or the path itself". *)
Theorem literal_pattern_matches_base_or_path
  (isDirectory : string -> bool) (p q : string)
  (Hq : no_glob_meta q = true) (Hdir : HasSuffix q "/" = false) :
  matchesGitIgnorePattern isDirectory p q = true <-> q = FilePath.Base p \/ q = p.
Proof.
  unfold matchesGitIgnorePattern, FilePath.ToSlash. rewrite Hdir. simpl andb.
  assert (Hstar : ContainsChar q "*" = false).
  { unfold no_glob_meta in Hq. apply negb_true_iff in Hq.
    repeat (apply orb_false_iff in Hq as [Hq ?]). exact Hq. }
  rewrite Hstar, (Match_literal q p Hq). simpl matched_of.
  destruct (String.eqb_spec q (FilePath.Base p)) as [E1|E1];
  destruct (String.eqb_spec q p) as [E2|E2]; split; intros H;
  try reflexivity; try tauto; discriminate.
Qed.

Lemma literal_pattern_matches_base_or_path_witness :
  no_glob_meta "main.x" = true /\ HasSuffix "main.x" "/" = false /\
  (matchesGitIgnorePattern (fun _ => false) "src/main.x" "main.x" = true <->
   "main.x" = FilePath.Base "src/main.x" \/ "main.x" = "src/main.x").
Proof.
  split; [reflexivity|]. split; [reflexivity|].
  apply literal_pattern_matches_base_or_path; reflexivity.
Defined.

(** ** C5 *)

(** C5 (counterexample): a path ending in '/' counts as a directory, so
    [bin/] matches the path [bin/] even when [os.Stat] reports no directory. *)
Lemma dir_only_pattern_matches_slash_path :
  HasSuffix "bin/" "/" = true /\ (fun _ : string => false) "bin/" = false /\
  matchesGitIgnorePattern (fun _ => false) "bin/" "bin/" = true.
Proof. repeat split. Qed.

(** C5 (amended): a directory-only pattern never matches a path that does
    not end in '/' and that the directory test does not report as a
    directory. *)
Theorem dir_only_pattern_rejects_non_directory
  (isDirectory : string -> bool) (p d : string)
  (Hd : HasSuffix d "/" = true) (Hp : HasSuffix p "/" = false)
  (Hstat : isDirectory p = false) :
  matchesGitIgnorePattern isDirectory p d = false.
Proof.
  unfold matchesGitIgnorePattern, FilePath.ToSlash. rewrite Hd, Hp, Hstat. reflexivity.
Qed.

Lemma dir_only_pattern_rejects_non_directory_witness :
  HasSuffix "bin/" "/" = true /\ HasSuffix "bin" "/" = false /\
  (fun _ : string => false) "bin" = false /\
  matchesGitIgnorePattern (fun _ => false) "bin" "bin/" = false.
Proof.
  split; [reflexivity|]. split; [reflexivity|]. split; [reflexivity|].
  apply dir_only_pattern_rejects_non_directory; reflexivity.
Defined.

(** ** C6 *)

Lemma check_len_512 : check_len 512 512 = true.
Proof. vm_compute. reflexivity. Qed.

Lemma check_na_sound (k : nat) (len : Z) :
  check_na k (Z.of_nat k) len = true ->
  forall na, (na <= k)%nat -> ratio_ok (Z.of_nat na) len = true.
Proof.
  induction k as [|k IH]; cbn [check_na]; intros H na Hna.
  - replace na with 0%nat by lia. exact H.
  - apply andb_true_iff in H as [H1 H2].
    replace (Z.of_nat (S k) - 1)%Z with (Z.of_nat k) in H2 by lia.
    destruct (Nat.eq_dec na (S k)) as [->|Hne].
    + exact H1.
    + apply IH; [exact H2|lia].
Qed.

Lemma check_len_sound (k : nat) :
  check_len k (Z.of_nat k) = true ->
  forall na len, (1 <= len <= k)%nat -> (na <= len)%nat ->
  ratio_ok (Z.of_nat na) (Z.of_nat len) = true.
Proof.
  induction k as [|k IH]; cbn [check_len]; intros H na len Hlen Hna; [lia|].
  apply andb_true_iff in H as [H1 H2].
  replace (Z.of_nat (S k) - 1)%Z with (Z.of_nat k) in H2 by lia.
  destruct (Nat.eq_dec len (S k)) as [->|Hne].
  - apply (check_na_sound (S k)); [exact H1|exact Hna].
  - apply IH; [exact H2|lia|exact Hna].
Qed.

(** The float64 test [float64(na)/float64(len) > 0.3] is the exact
    [10 * na > 3 * len] on the counts a 512-byte buffer can produce. *)
Lemma ratio_gt_exact (na len : nat) :
  (1 <= len <= 512)%nat -> (na <= len)%nat ->
  ratio_gt na len = (3 * len <? 10 * na)%nat.
Proof.
  intros Hlen Hna.
  pose proof (check_len_sound 512 check_len_512 na len Hlen Hna) as H.
  unfold ratio_ok in H. apply Bool.eqb_prop in H.
  change (ratio_gt na len) with (ratioZ (Z.of_nat na) (Z.of_nat len)). rewrite H.
  destruct (Nat.ltb_spec (3 * len) (10 * na)); destruct (Z.ltb_spec (3 * Z.of_nat len) (10 * Z.of_nat na));
    reflexivity || lia.
Qed.

Lemma count_loop_spec (b : list Byte.byte) (n na : nat) :
  (n <= 1)%nat ->
  count_loop b n na =
  if (2 <=? n + count_zero b)%nat then None else Some (na + count_high b)%nat.
Proof.
  revert n na; induction b as [|x r IH]; intros n na Hn.
  - cbn [count_loop]. unfold count_zero, count_high. cbn [filter length].
    rewrite !Nat.add_0_r. destruct (Nat.leb_spec 2 n); [lia|reflexivity].
  - unfold count_zero, count_high. cbn [count_loop filter].
    destruct (Byte.eqb x Byte.x00) eqn:Ez.
    + apply Byte.byte_dec_bl in Ez. subst x. simpl.
      fold (count_zero r). fold (count_high r).
      destruct n as [|[|n]]; [|simpl|lia].
      * rewrite (IH 1%nat na ltac:(lia)). reflexivity.
      * reflexivity.
    + destruct (127 <? Byte.to_nat x)%nat; cbn [length];
        fold (count_zero r); fold (count_high r).
      * rewrite (IH n (S na) Hn).
        destruct (2 <=? n + count_zero r)%nat; [reflexivity|f_equal; lia].
      * rewrite (IH n na Hn). reflexivity.
Qed.

Lemma count_high_le (b : list Byte.byte) : (count_high b <= length b)%nat.
Proof.
  unfold count_high. induction b as [|x r IH]; simpl; [lia|].
  destruct (127 <? Byte.to_nat x)%nat; simpl; lia.
Qed.

Lemma sig_match_iff (sig c : list Byte.byte) :
  sig_match sig c = true <-> firstn (length sig) c = sig.
Proof.
  revert c; induction sig as [|s ss IH]; intros c; destruct c as [|x xs]; simpl;
    split; intros H; try reflexivity; try discriminate.
  - apply andb_true_iff in H as [H1 H2]. apply Byte.byte_dec_bl in H1. subst.
    f_equal. apply IH. exact H2.
  - injection H as -> H2. apply andb_true_iff. split.
    + apply Byte.byte_dec_lb. reflexivity.
    + apply IH. exact H2.
Qed.

Lemma has_prefix_bytes_iff (sig c : list Byte.byte) :
  has_prefix_bytes sig c = true <-> firstn (length sig) c = sig.
Proof.
  unfold has_prefix_bytes.
  destruct (list_eq_dec Byte.byte_eq_dec (firstn (length sig) c) sig); split;
    congruence || tauto.
Qed.

Lemma prefix_length (sig c : list Byte.byte) :
  firstn (length sig) c = sig -> (length sig <= length c)%nat.
Proof.
  intros H. rewrite <- H at 1. rewrite length_firstn. lia.
Qed.

Lemma signature_guard (c : list Byte.byte) (sigs : list (list Byte.byte)) :
  Forall (fun sig => 2 <= length sig)%nat sigs ->
  (2 <=? length c)%nat &&
  existsb (fun sig => (length sig <=? length c)%nat && sig_match sig c) sigs =
  existsb (fun sig => has_prefix_bytes sig c) sigs.
Proof.
  intros Hall.
  assert (Hpt : forall sig, (length sig <=? length c)%nat && sig_match sig c =
                             has_prefix_bytes sig c).
  { intros sig. apply eq_true_iff_eq.
    rewrite andb_true_iff, has_prefix_bytes_iff, sig_match_iff, Nat.leb_le.
    split; [tauto|]. intros H. split; [apply prefix_length; exact H|exact H]. }
  assert (Hex : forall l,
    existsb (fun sig => (length sig <=? length c)%nat && sig_match sig c) l =
    existsb (fun sig => has_prefix_bytes sig c) l).
  { induction l as [|a l IHl]; simpl; [reflexivity|]. rewrite Hpt, IHl. reflexivity. }
  rewrite Hex.
  destruct (existsb (fun sig => has_prefix_bytes sig c) sigs) eqn:E.
  - apply existsb_exists in E as [sig [Hin Hp]].
    apply has_prefix_bytes_iff, prefix_length in Hp.
    rewrite Forall_forall in Hall. specialize (Hall sig Hin).
    destruct (Nat.leb_spec 2 (length c)); [reflexivity|lia].
  - apply andb_false_r.
Qed.

Lemma forallb_firstn {A} (P : A -> bool) (n : nat) (l : list A) :
  forallb P l = true -> forallb P (firstn n l) = true.
Proof.
  revert l; induction n as [|n IH]; intros [|x l] H; simpl in *; try reflexivity.
  apply andb_true_iff in H as [H1 H2]. rewrite H1, (IH l H2). reflexivity.
Qed.

Lemma prefix_forallb (P : Byte.byte -> bool) (sig b : list Byte.byte) :
  has_prefix_bytes sig b = true -> forallb P b = true -> forallb P sig = true.
Proof.
  intros Hp Hb. apply has_prefix_bytes_iff in Hp. rewrite <- Hp.
  apply forallb_firstn. exact Hb.
Qed.

Lemma printable_count_high (b : list Byte.byte) :
  forallb printable_or_zero b = true -> count_high b = 0%nat.
Proof.
  unfold count_high. induction b as [|x r IH]; simpl; [reflexivity|].
  intros H. apply andb_true_iff in H as [Hx Hr].
  unfold printable_or_zero in Hx.
  destruct (Byte.eqb x Byte.x00) eqn:Ez.
  - apply Byte.byte_dec_bl in Ez. subst x. simpl. exact (IH Hr).
  - simpl in Hx. apply andb_true_iff in Hx as [_ Hx]. apply Nat.leb_le in Hx.
    destruct (Nat.ltb_spec 127 (Byte.to_nat x)); [lia|]. exact (IH Hr).
Qed.

(** C6 (amended): on at most 512 bytes the classifier says "binary" exactly
    when the bytes start with one of the seven signatures, hold two or more
    zero bytes, or are non-empty with more than 30% of them above 127; the
    empty sequence is text, and so is printable ASCII with exactly one zero
    byte unless it starts with the signature "MZ" (PE) or "%PDF" (PDF). *)
Theorem isBinaryContent_spec (b : list Byte.byte) (Hlen : (length b <= 512)%nat) :
  isBinaryContent b = spec_isBinary b /\
  isBinaryContent [] = false /\
  (forallb printable_or_zero b = true -> count_zero b = 1%nat ->
   has_prefix_bytes [Byte.x4d; Byte.x5a] b = false ->
   has_prefix_bytes [Byte.x25; Byte.x50; Byte.x44; Byte.x46] b = false ->
   isBinaryContent b = false).
Proof.
  assert (Hmain : isBinaryContent b = spec_isBinary b).
  { unfold isBinaryContent, spec_isBinary.
    rewrite signature_guard by (repeat constructor).
    destruct (existsb (fun sig => has_prefix_bytes sig b) binarySignatures); [reflexivity|].
    rewrite (count_loop_spec b 0 0 ltac:(lia)).
    replace (0 + count_zero b)%nat with (count_zero b) by lia.
    replace (0 + count_high b)%nat with (count_high b) by lia.
    destruct (2 <=? count_zero b)%nat eqn:E2; [reflexivity|].
    destruct (0 <? length b)%nat eqn:E0; [|reflexivity].
    apply Nat.ltb_lt in E0. cbn iota beta. cbn [orb andb].
    apply ratio_gt_exact; [lia|]. pose proof (count_high_le b). lia. }
  split; [exact Hmain|]. split; [reflexivity|].
  intros Hpr Hz Hmz Hpdf. rewrite Hmain. unfold spec_isBinary.
  rewrite Hz, (printable_count_high b Hpr). simpl existsb.
  rewrite Hmz, Hpdf.
  repeat match goal with
  | |- context [has_prefix_bytes ?sig b] =>
      let E := fresh "E" in
      destruct (has_prefix_bytes sig b) eqn:E;
      [apply (prefix_forallb printable_or_zero) in E; [discriminate|exact Hpr]|]
  end.
  simpl. destruct (0 <? length b)%nat; simpl; [|reflexivity].
  destruct (Nat.ltb_spec (3 * length b) 0); [lia|reflexivity].
Qed.

Lemma isBinaryContent_spec_witness :
  (length [Byte.x61; Byte.x00; Byte.x62] <= 512)%nat /\
  (isBinaryContent [Byte.x61; Byte.x00; Byte.x62] = spec_isBinary [Byte.x61; Byte.x00; Byte.x62] /\
   isBinaryContent [] = false /\
   (forallb printable_or_zero [Byte.x61; Byte.x00; Byte.x62] = true ->
    count_zero [Byte.x61; Byte.x00; Byte.x62] = 1%nat ->
    has_prefix_bytes [Byte.x4d; Byte.x5a] [Byte.x61; Byte.x00; Byte.x62] = false ->
    has_prefix_bytes [Byte.x25; Byte.x50; Byte.x44; Byte.x46] [Byte.x61; Byte.x00; Byte.x62] = false ->
    isBinaryContent [Byte.x61; Byte.x00; Byte.x62] = false)).
Proof.
  split; [simpl; lia|].
  apply isBinaryContent_spec. simpl; lia.
Defined.

(** C6 (counterexample): "MZ" followed by one zero byte is printable ASCII
    with exactly one zero byte, and is classified binary (PE signature). *)
Lemma mz_with_one_zero_is_binary :
  forallb printable_or_zero [Byte.x4d; Byte.x5a; Byte.x00] = true /\
  count_zero [Byte.x4d; Byte.x5a; Byte.x00] = 1%nat /\
  isBinaryContent [Byte.x4d; Byte.x5a; Byte.x00] = true.
Proof. repeat split. Qed.

(** ** C7 *)

(** C7: [isTextFile] is [verifyTextContent] whatever the extension, and a
    file starting with the PNG signature is classified binary. *)
Theorem isTextFile_ignores_extension
  (Open : string -> OpenResult) (ToLower : string -> string) (path : string) :
  isTextFile Open ToLower path = verifyTextContent Open path /\
  (forall rest, Open path = Opened ([Byte.x89; Byte.x50; Byte.x4e; Byte.x47] ++ rest)%list ->
   isTextFile Open ToLower path = Ok false).
Proof.
  assert (Heq : isTextFile Open ToLower path = verifyTextContent Open path).
  { unfold isTextFile. destruct (existsb _ textExtensions); reflexivity. }
  split; [exact Heq|].
  intros rest Hopen. rewrite Heq. unfold verifyTextContent. rewrite Hopen.
  vm_compute. reflexivity.
Qed.

Lemma isTextFile_ignores_extension_witness :
  let Open := fun p : string =>
    if String.eqb p "logo.txt" then Opened [Byte.x89; Byte.x50; Byte.x4e; Byte.x47; Byte.x0d]
    else OpenFails in
  Open "logo.txt" = Opened ([Byte.x89; Byte.x50; Byte.x4e; Byte.x47] ++ [Byte.x0d])%list /\
  isTextFile Open (fun s => s) "logo.txt" = Ok false.
Proof.
  intros Open. split; [reflexivity|].
  apply (proj2 (isTextFile_ignores_extension Open (fun s => s) "logo.txt") [Byte.x0d]).
  reflexivity.
Defined.

(** ** C8 *)

Lemma pewcLoop_spec (TrimSpace : string -> string) (lines acc : list string) :
  pewcLoop TrimSpace lines acc =
  (acc ++ filter (fun line => negb (String.eqb line "" || HasPrefix line "#"))
                 (map TrimSpace lines))%list.
Proof.
  revert acc; induction lines as [|l ls IH]; intros acc; simpl.
  - rewrite app_nil_r. reflexivity.
  - destruct (String.eqb (TrimSpace l) "" || HasPrefix (TrimSpace l) "#"); simpl.
    + apply IH.
    + rewrite IH, <- app_assoc. reflexivity.
Qed.

(** C8: the resolved ignore set is the built-in list (when defaults are
    on) followed by the trimmed, non-empty, non-comment lines of [.pewc] in
    file order; an absent [.pewc] adds nothing, an unreadable one fails. *)
Theorem getIgnorePatterns_spec
  (ReadFile : string -> ReadFileResult) (Join : string -> string -> string)
  (TrimSpace : string -> string) (rootDir : string) (useDefaults : bool) :
  getIgnorePatterns ReadFile Join TrimSpace rootDir (negb useDefaults) =
  match ReadFile (Join rootDir ".pewc") with
  | RFNotExist => Ok (resolved_defaults useDefaults)
  | RFContent content =>
      Ok (resolved_defaults useDefaults ++ pewc_patterns TrimSpace content)%list
  | RFError => Err ErrPewc
  end.
Proof.
  unfold getIgnorePatterns, readPewcFile, resolved_defaults.
  rewrite negb_involutive.
  destruct (ReadFile (Join rootDir ".pewc")) as [content| |]; try reflexivity.
  - rewrite pewcLoop_spec. reflexivity.
  - rewrite app_nil_r. reflexivity.
Qed.

(** ** C9 *)

Lemma isPathIgnored_iff (isDirectory : string -> bool) (Rel : string -> string -> option string)
  (path rootDir : string) (patterns : list string) :
  isPathIgnored isDirectory Rel path rootDir patterns = true <->
  exists q, In q patterns /\
    matchesGitIgnorePattern isDirectory
      (FilePath.ToSlash (match Rel rootDir path with Some r => r | None => path end)) q = true.
Proof.
  unfold isPathIgnored. destruct patterns as [|q0 qs].
  - split; [discriminate|]. intros [q [[] _]].
  - rewrite existsb_exists. reflexivity.
Qed.

(** C9: a path is ignored iff some pattern of the list matches its slash
    relative path; the empty list ignores nothing; the order of the list
    does not matter. *)
Theorem isPathIgnored_spec (isDirectory : string -> bool) (Rel : string -> string -> option string)
  (path rootDir : string) (patterns : list string) :
  (isPathIgnored isDirectory Rel path rootDir patterns = true <->
   exists q, In q patterns /\
     matchesGitIgnorePattern isDirectory
       (FilePath.ToSlash (match Rel rootDir path with Some r => r | None => path end)) q = true) /\
  isPathIgnored isDirectory Rel path rootDir [] = false /\
  (forall patterns', Permutation patterns patterns' ->
   isPathIgnored isDirectory Rel path rootDir patterns' =
   isPathIgnored isDirectory Rel path rootDir patterns).
Proof.
  split; [apply isPathIgnored_iff|]. split; [reflexivity|].
  intros patterns' Hperm. apply eq_true_iff_eq.
  rewrite !isPathIgnored_iff.
  split; intros [q [Hin Hm]]; exists q; split; try exact Hm.
  - apply (Permutation_in q (Permutation_sym Hperm) Hin).
  - apply (Permutation_in q Hperm Hin).
Qed.

Lemma isPathIgnored_spec_witness :
  Permutation ["*.md"; "README.md"] ["README.md"; "*.md"] /\
  isPathIgnored (fun _ => false) (fun _ p => Some p) "README.md" "/proj" ["README.md"; "*.md"] =
  isPathIgnored (fun _ => false) (fun _ p => Some p) "README.md" "/proj" ["*.md"; "README.md"].
Proof.
  split; [apply perm_swap|].
  apply (proj2 (proj2 (isPathIgnored_spec (fun _ => false) (fun _ p => Some p)
                         "README.md" "/proj" ["*.md"; "README.md"]))).
  apply perm_swap.
Defined.

(** ** C10 *)

Section WalkProofs.

Variable isDirectory : string -> bool.
Variable Rel : string -> string -> option string.
Variable Join : string -> string -> string.
Variable Open : string -> OpenResult.
Variable ToLower : string -> string.
Variable rootDir : string.
Variable ignorePatterns : list string.

Let fn := collectFn isDirectory Rel Open ToLower rootDir ignorePatterns.
Let elig := eligible isDirectory Rel Join Open ToLower rootDir ignorePatterns.


Lemma eligible_text (node : entry) :
  forall path p, In p (elig path node) -> isTextFile Open ToLower p = Ok true.
Proof.
  unfold elig.
  induction node as [n|n cs HF|n|n] using entry_ind2; intros path p Hin; cbn [eligible] in Hin.
  - destruct (isPathIgnored isDirectory Rel path rootDir ignorePatterns); [destruct Hin|].
    destruct (isTextFile Open ToLower path) as [[|]|] eqn:E.
    + destruct Hin as [<-|[]]. exact E.
    + destruct Hin.
    + destruct Hin.
  - destruct (isPathIgnored isDirectory Rel path rootDir ignorePatterns); [destruct Hin|].
    induction HF as [|c cs' Pc HF' IH]; cbn [eligible_children] in Hin; [destruct Hin|].
    apply in_app_or in Hin as [Hin|Hin]; [exact (Pc _ _ Hin)|exact (IH Hin)].
  - destruct Hin.
  - destruct Hin.
Qed.

Let wok := walk_ok isDirectory Rel Join rootDir ignorePatterns.

Lemma walk_collect_ok (node : entry) :
  forall path acc, wok path node = true ->
  exists r, walk Join fn path node acc = (r, acc ++ elig path node)%list /\
            (r = WNil \/ (r = WSkipDir /\ entry_is_dir node = true)).
Proof.
  induction node as [n|n cs HF|n|n] using entry_ind2; intros path acc Hwl.
  - cbn [walk]. unfold fn, collectFn, elig, eligible.
    destruct (isPathIgnored isDirectory Rel path rootDir ignorePatterns).
    + exists WNil. rewrite app_nil_r. auto.
    + exists WNil. destruct (isTextFile Open ToLower path) as [[|]|]; rewrite ?app_nil_r; auto.
  - cbn [walk].
    assert (Hfn : fn path (Some true) None acc =
      ((if isPathIgnored isDirectory Rel path rootDir ignorePatterns then WSkipDir else WNil), acc)).
    { unfold fn, collectFn. destruct (isPathIgnored isDirectory Rel path rootDir ignorePatterns); reflexivity. }
    rewrite Hfn. unfold elig. cbn [eligible]. unfold wok in Hwl. cbn [walk_ok] in Hwl.
    destruct (isPathIgnored isDirectory Rel path rootDir ignorePatterns).
    + exists WSkipDir. rewrite app_nil_r. split; [reflexivity|right; auto].
    + exists WNil. split; [|left; reflexivity].
      cbn [orb] in Hwl. clear Hfn. revert acc.
      induction HF as [|c cs' Pc HF' IH]; intros acc.
      * cbn. rewrite app_nil_r. reflexivity.
      * cbn [forallb] in Hwl. apply andb_true_iff in Hwl as [Hc Hcs].
        cbn [walk_children eligible_children].
        destruct (Pc (Join path (entry_name c)) acc Hc) as [r [Hw Hr]].
        unfold elig in Hw.
        destruct c as [m|m l|m]; [| |discriminate Hc];
          rewrite Hw; destruct Hr as [->|[-> Hd]];
          try discriminate Hd; cbn iota;
          rewrite (IH Hcs), app_assoc; reflexivity.
  - discriminate Hwl.
  - discriminate Hwl.
Qed.

Lemma walk_collect_fail (node : entry) :
  forall path acc, wok path node = false ->
  exists e st, walk Join fn path node acc = (WErr e, st).
Proof.
  induction node as [n|n cs HF|n|n] using entry_ind2; intros path acc Hwl.
  - discriminate Hwl.
  - cbn [walk].
    assert (Hfn : fn path (Some true) None acc =
      ((if isPathIgnored isDirectory Rel path rootDir ignorePatterns then WSkipDir else WNil), acc)).
    { unfold fn, collectFn. destruct (isPathIgnored isDirectory Rel path rootDir ignorePatterns); reflexivity. }
    rewrite Hfn. unfold wok in Hwl. cbn [walk_ok] in Hwl.
    destruct (isPathIgnored isDirectory Rel path rootDir ignorePatterns); [discriminate Hwl|].
    cbn [orb] in Hwl. clear Hfn. revert acc.
    induction HF as [|c cs' Pc HF' IH]; intros acc; [discriminate Hwl|].
    cbn [forallb] in Hwl. cbn [walk_children].
    destruct c as [m|m l|m].
    + destruct (walk_collect_ok (EFile m) (Join path (entry_name (EFile m))) acc eq_refl) as [r [Hw Hr]].
      rewrite Hw. destruct Hr as [->|[-> Hd]]; [|discriminate Hd]. apply IH. exact Hwl.
    + destruct (wok (Join path (entry_name (EDir m l))) (EDir m l)) eqn:Ec.
      * destruct (walk_collect_ok (EDir m l) _ acc Ec) as [r [Hw Hr]].
        unfold wok in Ec. rewrite Ec in Hwl.
        rewrite Hw. destruct Hr as [->|[-> _]]; apply IH; exact Hwl.
      * destruct (Pc _ acc Ec) as [e [st Hw]]. rewrite Hw. exists e, st. reflexivity.
    + unfold fn, collectFn. exists (ErrLstat (Join path (entry_name (EBroken m)))), acc. reflexivity.
  - cbn [walk]. unfold fn, collectFn. exists (ErrReadDir path), acc. reflexivity.
  - cbn [walk]. unfold fn, collectFn. exists (ErrLstat path), acc. reflexivity.
Qed.

End WalkProofs.

(** C10 (amended): [collectTextFiles] succeeds exactly when every
    directory the walk reaches can be listed and every entry it reaches can
    be Lstat'ed (it does not reach the entries of an ignored directory, but
    still lists that directory and Lstats it), and then returns the sorted
    eligible files; a file whose classification fails (open or read error)
    is skipped, never a cause of failure: every returned file classified
    as text. *)
Theorem collectTextFiles_skips_unreadable_files
  (isDirectory : string -> bool) (Rel : string -> string -> option string)
  (Join : string -> string -> string) (Open : string -> OpenResult)
  (ToLower : string -> string) (rootDir : string) (ignorePatterns : list string)
  (rootNode : entry) :
  (walk_ok isDirectory Rel Join rootDir ignorePatterns rootDir rootNode = true ->
   collectTextFiles isDirectory Rel Join Open ToLower rootDir ignorePatterns rootNode =
   Ok (sort_strings (eligible isDirectory Rel Join Open ToLower rootDir ignorePatterns rootDir rootNode))) /\
  (walk_ok isDirectory Rel Join rootDir ignorePatterns rootDir rootNode = false ->
   exists e, collectTextFiles isDirectory Rel Join Open ToLower rootDir ignorePatterns rootNode = Err e) /\
  (forall p, In p (eligible isDirectory Rel Join Open ToLower rootDir ignorePatterns rootDir rootNode) ->
   isTextFile Open ToLower p = Ok true).
Proof.
  split; [|split; [|apply eligible_text]]; intros Hwl; unfold collectTextFiles, Walk.
  - destruct (walk_collect_ok isDirectory Rel Join Open ToLower rootDir ignorePatterns
                rootNode rootDir [] Hwl) as [r [Hw Hr]].
    destruct rootNode as [n|n l|n]; [| |discriminate Hwl];
      rewrite Hw; destruct Hr as [->|[-> _]]; reflexivity.
  - destruct rootNode as [n|n l|n].
    + discriminate Hwl.
    + destruct (walk_collect_fail isDirectory Rel Join Open ToLower rootDir ignorePatterns
                  (EDir n l) rootDir [] Hwl) as [e [st Hw]].
      rewrite Hw. exists e. reflexivity.
    + exists (ErrLstat rootDir). reflexivity.
Qed.

(** The ignored directory [cache] holds a directory that cannot be listed,
    and [b.txt] cannot be opened: the walk never reaches the former, skips
    the latter, and returns [a.txt]. *)
Lemma collectTextFiles_skips_unreadable_files_witness :
  let Join := fun p n => (p ++ "/" ++ n)%string in
  let Rel := fun b p => if String.eqb b p then Some "." else Some p in
  let Open := fun p => if String.eqb p "/proj/a.txt" then Opened [Byte.x68; Byte.x69]
                       else OpenFails in
  let tree := EDir "proj" (Some [EFile "a.txt"; EFile "b.txt";
                                 EDir "cache" (Some [EDir "locked" None])]) in
  walk_ok (fun _ => false) Rel Join "/proj" ["cache"] "/proj" tree = true /\
  collectTextFiles (fun _ => false) Rel Join Open (fun s => s) "/proj" ["cache"] tree =
  Ok ["/proj/a.txt"].
Proof.
  intros Join Rel Open tree. split; [vm_compute; reflexivity|].
  rewrite (proj1 (collectTextFiles_skips_unreadable_files (fun _ => false) Rel Join Open
                    (fun s => s) "/proj" ["cache"] tree)) by (vm_compute; reflexivity).
  vm_compute. reflexivity.
Defined.

(** C10 (counterexample): the root is listable and the file [a.txt] cannot
    be opened, but the subdirectory [sub] cannot be listed: the walk
    callback returns that error and the whole collection fails. *)
Lemma unlistable_subdirectory_aborts_collection :
  let Join := fun p n => (p ++ "/" ++ n)%string in
  let Open := fun _ : string => OpenFails in
  Open "/proj/a.txt" = OpenFails /\
  collectTextFiles (fun _ => false) (fun _ p => Some p) Join Open (fun s => s) "/proj" []
    (EDir "proj" (Some [EFile "a.txt"; EDir "sub" None])) = Err (ErrReadDir "/proj/sub").
Proof. split; reflexivity. Qed.

(** ** Output functions *)

Lemma string_app_assoc (a b c : string) : ((a ++ b) ++ c)%string = (a ++ (b ++ c))%string.
Proof. induction a as [|x a IH]; simpl; [reflexivity|rewrite IH; reflexivity]. Qed.

Lemma string_app_empty_r (a : string) : (a ++ "")%string = a.
Proof. induction a as [|x a IH]; simpl; [reflexivity|rewrite IH; reflexivity]. Qed.

Lemma list_ascii_of_string_app (a b : string) :
  list_ascii_of_string (a ++ b) = (list_ascii_of_string a ++ list_ascii_of_string b)%list.
Proof. induction a as [|x a IH]; simpl; [reflexivity|rewrite IH; reflexivity]. Qed.

Lemma string_of_list_ascii_app (l1 l2 : list ascii) :
  string_of_list_ascii (l1 ++ l2) = (string_of_list_ascii l1 ++ string_of_list_ascii l2)%string.
Proof. induction l1 as [|x l1 IH]; simpl; [reflexivity|rewrite IH; reflexivity]. Qed.

Lemma HasPrefix_iff (s p : string) : HasPrefix s p = true <-> exists r, s = (p ++ r)%string.
Proof.
  revert s; induction p as [|a p IH]; intros s; simpl.
  - split; [intros _; exists s; reflexivity|intros _; destruct s; reflexivity].
  - destruct s as [|c s].
    + split; [discriminate|]. intros [r Hr]. discriminate Hr.
    + cbn [HasPrefix]. unfold char_eqb. rewrite andb_true_iff, Ascii.eqb_eq, IH. split.
      * intros [-> [r ->]]. exists r. reflexivity.
      * intros [r Hr]. injection Hr as -> ->. split; [reflexivity|exists r; reflexivity].
Qed.

Lemma HasSuffix_iff (s t : string) : HasSuffix s t = true <-> exists p, s = (p ++ t)%string.
Proof.
  unfold HasSuffix. rewrite HasPrefix_iff. split.
  - intros [r Hr].
    apply (f_equal list_ascii_of_string) in Hr.
    rewrite list_ascii_of_string_app, !list_ascii_of_string_of_list_ascii in Hr.
    apply (f_equal (@rev ascii)) in Hr.
    rewrite rev_app_distr, !rev_involutive in Hr.
    exists (string_of_list_ascii (rev (list_ascii_of_string r))).
    rewrite <- (string_of_list_ascii_of_string s), Hr, string_of_list_ascii_app,
      string_of_list_ascii_of_string. reflexivity.
  - intros [p ->]. exists (string_of_list_ascii (rev (list_ascii_of_string p))).
    rewrite list_ascii_of_string_app, rev_app_distr, string_of_list_ascii_app. reflexivity.
Qed.

(** [HasSuffix] of a concatenation, on the reversed strings. *)
Lemma HasSuffix_app (a b c : string) :
  HasSuffix (a ++ b) c =
  HasPrefix (string_of_list_ascii (rev (list_ascii_of_string b)) ++
             string_of_list_ascii (rev (list_ascii_of_string a)))
            (string_of_list_ascii (rev (list_ascii_of_string c))).
Proof.
  unfold HasSuffix. rewrite list_ascii_of_string_app, rev_app_distr, string_of_list_ascii_app.
  reflexivity.
Qed.

Lemma HasSuffix_app_self (a b : string) : HasSuffix (a ++ b) b = true.
Proof. apply HasSuffix_iff. exists a. reflexivity. Qed.

Lemma last_byte_some (s : string) (c : ascii) :
  last_byte s = Some c -> exists p, s = (p ++ String c "")%string.
Proof.
  induction s as [|a r IH]; [discriminate|].
  destruct r as [|b r'].
  - intros H. injection H as ->. exists "". reflexivity.
  - intros H. destruct (IH H) as [p Hp]. exists (String a p). simpl. rewrite <- Hp. reflexivity.
Qed.

Lemma last_byte_none (s : string) : last_byte s = None -> s = "".
Proof.
  induction s as [|a r IH]; [reflexivity|].
  destruct r as [|b r']; [discriminate|].
  intros H. specialize (IH H). discriminate IH.
Qed.

Lemma string_app_eq_empty (a b : string) : (a ++ b)%string = "" -> b = "".
Proof. destruct a; simpl; [auto|discriminate]. Qed.

(** A written section always ends with its closing fence on a line of
    its own. *)
Lemma writeSection_close (buf title file content : string) :
  HasSuffix (writeSection buf title file content) fence_close = true.
Proof.
  unfold writeSection, fence_close.
  set (B := ((buf ++ ("## " ++ title ++ nl ++ nl)) ++ ("```" ++ fenceLang file ++ nl))
              ++ sanitizeFileContent content).
  assert (HB : exists p, match last_byte B with
                         | Some c => if negb (char_eqb c newline) then B ++ nl else B
                         | None => B
                         end = (p ++ nl)%string).
  { destruct (last_byte B) as [c|] eqn:E.
    - destruct (char_eqb c newline) eqn:Ec; simpl.
      + apply Ascii.eqb_eq in Ec. subst c.
        destruct (last_byte_some _ _ E) as [p Hp]. exists p. exact Hp.
      + exists B. reflexivity.
    - apply last_byte_none in E. exfalso. revert E. unfold B.
      rewrite !string_app_assoc. destruct buf; simpl; discriminate. }
  destruct HB as [p Hp]. rewrite Hp, string_app_assoc. apply HasSuffix_app_self.
Qed.

(** ** [sanitizeFileContent] *)

(** X1: [sanitizeFileContent] leaves no byte below 32 other than '\n',
    '\t' and '\r'; it removes only those bytes, so the length drops by
    their number; and sanitising twice is sanitising once. *)
Theorem sanitizeFileContent_spec (s : string) :
  forallb (fun c => negb (dropped_control c)) (list_ascii_of_string (sanitizeFileContent s)) = true /\
  sanitizeFileContent (sanitizeFileContent s) = sanitizeFileContent s /\
  String.length s =
    (String.length (sanitizeFileContent s) + length (filter dropped_control (list_ascii_of_string s)))%nat.
Proof.
  induction s as [|c r [IH1 [IH2 IH3]]]; [repeat split|].
  cbn [sanitizeFileContent list_ascii_of_string filter String.length].
  destruct (dropped_control c) eqn:E.
  - repeat split; [exact IH1|exact IH2|]. cbn [length]. lia.
  - cbn [list_ascii_of_string forallb sanitizeFileContent]. rewrite E, IH1, IH2.
    repeat split. cbn [String.length]. lia.
Qed.

(** ** [sanitizeContent] *)

Lemma occurs3_cons (x y z a : ascii) (r : string) :
  occurs3 x y z r = true -> occurs3 x y z (String a r) = true.
Proof. intros H. cbn [occurs3]. rewrite H, orb_true_r. reflexivity. Qed.

Lemma ReplaceAll3_head (s t : string) (o1 o2 o3 d e : ascii) :
  ReplaceAll3 s o1 o2 o3 (String d "") = String e t -> e <> d ->
  exists r1, s = String e r1 /\ t = ReplaceAll3 r1 o1 o2 o3 (String d "").
Proof.
  intros H Hne. destruct s as [|a r]; [discriminate|].
  cbn [ReplaceAll3] in H.
  destruct r as [|b [|c r']].
  - injection H as -> <-. exists "". split; reflexivity.
  - injection H as -> <-. exists (String b ""). split; reflexivity.
  - destruct (char_eqb a o1 && char_eqb b o2 && char_eqb c o3).
    + simpl in H. injection H as -> _. congruence.
    + injection H as -> <-. eexists. split; reflexivity.
Qed.

(** An occurrence of [x y z] after replacing [o1 o2 o3] by a one-byte
    [d] outside [x y z] was already in the input, and is not [o1 o2 o3]. *)
Lemma ReplaceAll3_occurs (x y z o1 o2 o3 d : ascii)
  (Hx : char_eqb d x = false) (Hy : char_eqb d y = false) (Hz : char_eqb d z = false) :
  forall s, occurs3 x y z (ReplaceAll3 s o1 o2 o3 (String d "")) = true ->
  occurs3 x y z s = true /\ negb (char_eqb x o1 && char_eqb y o2 && char_eqb z o3) = true.
Proof.
  assert (Hneq : forall e, char_eqb d e = false -> e <> d).
  { intros e He ->. unfold char_eqb in He. rewrite Ascii.eqb_refl in He. discriminate. }
  intros s. remember (String.length s) as n eqn:Hn.
  revert s Hn. induction n as [n IH] using lt_wf_ind. intros s Hn H.
  destruct s as [|a r]; [discriminate|].
  cbn [ReplaceAll3] in H.
  destruct r as [|b [|c r']].
  - discriminate.
  - discriminate.
  - destruct (char_eqb a o1 && char_eqb b o2 && char_eqb c o3) eqn:Ec.
    + simpl in H.
      assert (Hocc : occurs3 x y z (ReplaceAll3 r' o1 o2 o3 (String d "")) = true).
      { destruct (ReplaceAll3 r' o1 o2 o3 (String d "")) as [|b' [|c' t]];
          cbn [occurs3] in H |- *; rewrite ?Hx in H; simpl in H; exact H. }
      destruct (IH (String.length r') ltac:(subst n; simpl; lia) r' eq_refl Hocc) as [H1 H2].
      split; [|exact H2]. do 3 apply occurs3_cons. exact H1.
    + set (R := ReplaceAll3 (String b (String c r')) o1 o2 o3 (String d "")) in H.
      assert (HR : R = ReplaceAll3 (String b (String c r')) o1 o2 o3 (String d "")) by reflexivity.
      clearbody R. cbn [occurs3] in H. apply orb_true_iff in H as [H|H].
      * destruct R as [|b' [|c' t]]; [discriminate|discriminate|].
        apply andb_true_iff in H as [H Hz']. apply andb_true_iff in H as [Hx' Hy'].
        unfold char_eqb in Hx', Hy', Hz'. apply Ascii.eqb_eq in Hx', Hy', Hz'. subst a b' c'.
        symmetry in HR.
        destruct (ReplaceAll3_head _ _ _ _ _ _ _ HR (Hneq y Hy)) as [r1 [Hr1 Ht]].
        symmetry in Ht.
        destruct (ReplaceAll3_head _ _ _ _ _ _ _ Ht (Hneq z Hz)) as [r2 [Hr2 _]].
        injection Hr1 as -> Hr1. subst r1. injection Hr2 as -> ->.
        split.
        -- cbn [occurs3]. unfold char_eqb. rewrite !Ascii.eqb_refl. reflexivity.
        -- rewrite Ec. reflexivity.
      * subst R. destruct (IH (String.length (String b (String c r'))) ltac:(subst n; simpl; lia)
                             _ eq_refl H) as [H1 H2].
        split; [apply occurs3_cons; exact H1|exact H2].
Qed.

Lemma ReplaceAll3_no_lead (o2 o3 : ascii) (new : string) :
  forall s, ContainsChar s "226" = false -> ReplaceAll3 s "226" o2 o3 new = s.
Proof.
  induction s as [|a r IH]; intros H; [reflexivity|].
  cbn [ContainsChar] in H. apply orb_false_iff in H as [Ha Hr].
  cbn [ReplaceAll3].
  destruct r as [|b [|c r']].
  - reflexivity.
  - rewrite IH by exact Hr. reflexivity.
  - rewrite Ha. cbn [andb]. rewrite IH by exact Hr. reflexivity.
Qed.

(** X2: the output of [sanitizeContent] contains none of the three
    box-drawing characters it replaces (U+251C, U+2500, U+2514 in UTF-8),
    and a text without the byte 0xE2 comes out unchanged. *)
Theorem sanitizeContent_removes_box_drawing (s : string) :
  occurs3 "226" "148" "156" (sanitizeContent s) = false /\
  occurs3 "226" "148" "128" (sanitizeContent s) = false /\
  occurs3 "226" "148" "148" (sanitizeContent s) = false /\
  (ContainsChar s "226" = false -> sanitizeContent s = s).
Proof.
  unfold sanitizeContent.
  repeat split.
  - destruct (occurs3 _ _ _ _) eqn:E; [exfalso|reflexivity].
    apply ReplaceAll3_occurs in E as [E _]; try reflexivity.
    apply ReplaceAll3_occurs in E as [E _]; try reflexivity.
    apply ReplaceAll3_occurs in E as [_ E]; try reflexivity.
    discriminate E.
  - destruct (occurs3 _ _ _ _) eqn:E; [exfalso|reflexivity].
    apply ReplaceAll3_occurs in E as [E _]; try reflexivity.
    apply ReplaceAll3_occurs in E as [_ E]; try reflexivity.
    discriminate E.
  - destruct (occurs3 _ _ _ _) eqn:E; [exfalso|reflexivity].
    apply ReplaceAll3_occurs in E as [_ E]; try reflexivity.
    discriminate E.
  - intros H. rewrite !(ReplaceAll3_no_lead _ _ _ s H). reflexivity.
Qed.

(** ** The code fence language *)

Lemma ContainsChar_of_list (l : list ascii) (c : ascii) :
  ContainsChar (string_of_list_ascii l) c = existsb (fun d => char_eqb d c) l.
Proof. induction l as [|d l IH]; simpl; [reflexivity|rewrite IH; reflexivity]. Qed.

Lemma Ext_shape (path : string) :
  FilePath.Ext path = "" \/
  exists e, FilePath.Ext path = String "." e /\
            ContainsChar e "." = false /\ ContainsChar e "/" = false.
Proof.
  unfold FilePath.Ext.
  generalize (rev (list_ascii_of_string path)) as r. intros r.
  match goal with |- context [?g r (@nil ascii)] => set (go := g) end.
  assert (Hgo : forall r acc,
    existsb (fun d => char_eqb d ".") acc = false -> existsb (fun d => char_eqb d "/") acc = false ->
    go r acc = [] \/
    exists acc', go r acc = "."%char :: acc' /\
      existsb (fun d => char_eqb d ".") acc' = false /\ existsb (fun d => char_eqb d "/") acc' = false).
  { induction r0 as [|c r0 IH]; intros acc H1 H2; [left; reflexivity|].
    cbn [go]. destruct (char_eqb c "/") eqn:Es; [left; reflexivity|].
    destruct (char_eqb c ".") eqn:Ed.
    - right. unfold char_eqb in Ed. apply Ascii.eqb_eq in Ed. subst c.
      exists acc. auto.
    - apply IH; simpl; rewrite ?Es, ?Ed; assumption. }
  destruct (Hgo r [] eq_refl eq_refl) as [->|[acc' [-> [H1 H2]]]]; [left; reflexivity|].
  right. exists (string_of_list_ascii acc'). rewrite !ContainsChar_of_list. auto.
Qed.

(** X3: the language written after an opening code fence is never empty
    and contains neither '.' nor '/': it is the extension of the file's
    last path element without its dot, or [text]. *)
Theorem fenceLang_is_a_word (file : string) :
  fenceLang file <> "" /\
  ContainsChar (fenceLang file) "." = false /\
  ContainsChar (fenceLang file) "/" = false.
Proof.
  unfold fenceLang.
  destruct (Ext_shape file) as [->|[e [-> [H1 H2]]]].
  - repeat split; discriminate.
  - cbn [TrimPrefixDot]. replace (char_eqb "." ".") with true by reflexivity.
    destruct (String.eqb e "") eqn:E.
    + repeat split; discriminate.
    + apply String.eqb_neq in E. auto.
Qed.

(** ** [processFiles] and [generateMarkdown] *)

Lemma processFiles_loop_none (Open : string -> OpenResult) (ToLower : string -> string)
  (ReadFile : string -> ReadFileResult) (files : list string) (buf : string) :
  existsb (pf_written Open ToLower ReadFile) files = false ->
  processFiles_loop Open ToLower ReadFile files buf = buf.
Proof.
  revert buf; induction files as [|f fs IH]; intros buf H; [reflexivity|].
  cbn [existsb] in H. apply orb_false_iff in H as [Hf Hfs].
  unfold pf_written in Hf. cbn [processFiles_loop].
  destruct (isTextFile Open ToLower f) as [[|]|]; try (apply IH; exact Hfs).
  destruct (ReadFile f); try (apply IH; exact Hfs). discriminate Hf.
Qed.

Lemma processFiles_loop_close (Open : string -> OpenResult) (ToLower : string -> string)
  (ReadFile : string -> ReadFileResult) (files : list string) (buf : string) :
  HasSuffix (processFiles_loop Open ToLower ReadFile files buf) fence_close =
  existsb (pf_written Open ToLower ReadFile) files || HasSuffix buf fence_close.
Proof.
  revert buf; induction files as [|f fs IH]; intros buf; [reflexivity|].
  cbn [processFiles_loop existsb]. unfold pf_written at 1.
  destruct (isTextFile Open ToLower f) as [[|]|]; try apply IH.
  destruct (ReadFile f) as [content| |]; try apply IH.
  rewrite IH, writeSection_close, !orb_true_r. reflexivity.
Qed.

(** X4: [processFiles] never fails; its output ends with a closing code
    fence on a line of its own exactly when some file got a section (it
    classified as text and could be read), and is the bare heading
    otherwise. *)
Theorem processFiles_output_shape (Open : string -> OpenResult) (ToLower : string -> string)
  (ReadFile : string -> ReadFileResult) (files : list string) :
  match processFiles Open ToLower ReadFile files with
  | Ok out =>
      HasSuffix out fence_close = existsb (pf_written Open ToLower ReadFile) files /\
      String.eqb out ("# Source Code Files" ++ nl ++ nl) =
        negb (existsb (pf_written Open ToLower ReadFile) files)
  | Err _ => False
  end.
Proof.
  unfold processFiles.
  rewrite processFiles_loop_close.
  replace (HasSuffix ("# Source Code Files" ++ nl ++ nl) fence_close) with false by reflexivity.
  rewrite orb_false_r.
  destruct (existsb (pf_written Open ToLower ReadFile) files) eqn:E.
  - split; [reflexivity|].
    apply String.eqb_neq. intros Heq.
    pose proof (processFiles_loop_close Open ToLower ReadFile files ("# Source Code Files" ++ nl ++ nl)) as Hc.
    rewrite E, Heq in Hc. discriminate Hc.
  - rewrite (processFiles_loop_none _ _ _ _ _ E). split; [reflexivity|apply String.eqb_refl].
Qed.

Lemma markdown_loop_spec (Rel : string -> string -> option string)
  (ReadFile : string -> ReadFileResult) (dumpDir : string) (files : list string) :
  forall buf k,
  let '(buf', k') := markdown_loop Rel ReadFile dumpDir files buf k in
  k' = (k + length (filter (md_written Rel ReadFile dumpDir) files))%nat /\
  HasSuffix buf' fence_close = existsb (md_written Rel ReadFile dumpDir) files || HasSuffix buf fence_close /\
  (existsb (md_written Rel ReadFile dumpDir) files = false -> buf' = buf).
Proof.
  induction files as [|f fs IH]; intros buf k.
  - cbn. repeat split. lia.
  - cbn [markdown_loop existsb filter].
    destruct (md_written Rel ReadFile dumpDir f) eqn:Ew; unfold md_written in Ew;
      destruct (Rel dumpDir f) as [relPath|]; try discriminate Ew;
      try (destruct (ReadFile f) as [content| |]; try discriminate Ew);
      try exact (IH buf k).
    specialize (IH (writeSection buf relPath f content) (S k)).
    destruct (markdown_loop Rel ReadFile dumpDir fs _ _) as [b' k'].
    destruct IH as [IH1 [IH2 _]]. cbn [length orb].
    repeat split; [lia| |discriminate].
    rewrite IH2, writeSection_close, orb_true_r. reflexivity.
Qed.

Lemma filter_existsb_false {A} (P : A -> bool) (l : list A) :
  existsb P l = false -> filter P l = [].
Proof.
  induction l as [|x l IH]; intros H; [reflexivity|].
  cbn [existsb] in H. apply orb_false_iff in H as [Hx Hl]. cbn [filter]. rewrite Hx. exact (IH Hl).
Qed.

(** X5: the Markdown document ends with "No text files found in the
    directory." exactly when no file of the list got a section (each
    failed [filepath.Rel] or [os.ReadFile]), and otherwise ends with a
    closing code fence on a line of its own. *)
Theorem generateMarkdown_ending (Rel : string -> string -> option string)
  (ReadFile : string -> ReadFileResult) (dumpDir : string) (files : list string) (tree : string) :
  HasSuffix (generateMarkdown Rel ReadFile dumpDir files tree)
            ("No text files found in the directory." ++ nl) =
    negb (existsb (md_written Rel ReadFile dumpDir) files) /\
  HasSuffix (generateMarkdown Rel ReadFile dumpDir files tree) fence_close =
    existsb (md_written Rel ReadFile dumpDir) files.
Proof.
  unfold generateMarkdown.
  match goal with |- context [markdown_loop _ _ _ _ ?h 0] => set (hdr := h) end.
  pose proof (markdown_loop_spec Rel ReadFile dumpDir files hdr 0) as Hl.
  destruct (markdown_loop Rel ReadFile dumpDir files hdr 0) as [b' k'].
  destruct Hl as [Hk [Hc Hn]].
  assert (Hhdr : HasSuffix hdr fence_close = false).
  { unfold hdr. rewrite HasSuffix_app. reflexivity. }
  rewrite Hhdr, orb_false_r in Hc.
  destruct (existsb (md_written Rel ReadFile dumpDir) files) eqn:E.
  - assert (Hk0 : Nat.eqb k' 0 = false).
    { apply Nat.eqb_neq. subst k'. cbn [Nat.add].
      apply existsb_exists in E as [f [Hin Hf]].
      intros H0. apply length_zero_iff_nil in H0.
      assert (Hinf : In f (filter (md_written Rel ReadFile dumpDir) files))
        by (apply filter_In; auto).
      rewrite H0 in Hinf. destruct Hinf. }
    rewrite Hk0. split; [|exact Hc].
    apply HasSuffix_iff in Hc as [p ->]. rewrite HasSuffix_app. reflexivity.
  - assert (Hk0 : Nat.eqb k' 0 = true).
    { apply Nat.eqb_eq. subst k'. cbn [Nat.add]. apply length_zero_iff_nil.
      rewrite (filter_existsb_false _ _ E). reflexivity. }
    rewrite Hk0, (Hn eq_refl). split.
    + apply HasSuffix_app_self.
    + rewrite HasSuffix_app. reflexivity.
Qed.

(** ** [collectTextFiles]: order, ignored root, failing children *)

Lemma insert_string_sorted (x : string) (l : list string) :
  Sorted (fun a b => String.leb a b = true) l ->
  Sorted (fun a b => String.leb a b = true) (insert_string x l).
Proof.
  induction l as [|y l IH]; intros H; cbn [insert_string]; [repeat constructor|].
  destruct (String.leb x y) eqn:E.
  - constructor; [exact H|constructor; exact E].
  - assert (Hyx : String.leb y x = true)
      by (destruct (String.leb_total x y) as [H'|H']; [congruence|exact H']).
    apply Sorted_inv in H as [Hl Hhd]. constructor; [exact (IH Hl)|].
    destruct l as [|z l]; cbn [insert_string]; [constructor; exact Hyx|].
    destruct (String.leb x z); constructor; [exact Hyx|].
    inversion Hhd; assumption.
Qed.

Lemma sort_strings_sorted (l : list string) :
  Sorted (fun a b => String.leb a b = true) (sort_strings l).
Proof. induction l as [|x l IH]; cbn [sort_strings]; [constructor|apply insert_string_sorted, IH]. Qed.

(** X6: whatever the tree, a list returned by [collectTextFiles] is in
    byte-wise increasing order. *)
Theorem collectTextFiles_sorted
  (isDirectory : string -> bool) (Rel : string -> string -> option string)
  (Join : string -> string -> string) (Open : string -> OpenResult)
  (ToLower : string -> string) (rootDir : string) (ignorePatterns : list string)
  (rootNode : entry) :
  match collectTextFiles isDirectory Rel Join Open ToLower rootDir ignorePatterns rootNode with
  | Ok l => Sorted (fun a b => String.leb a b = true) l
  | Err _ => True
  end.
Proof.
  unfold collectTextFiles.
  destruct (Walk Join _ rootDir rootNode []) as [[| |e] fl]; try exact I; apply sort_strings_sorted.
Qed.

(** X7: when the root path itself is ignored, [collectTextFiles] returns
    no file for a root that can be listed, whatever it holds, and for a
    root that is a file; it fails only when the root cannot be listed or
    Lstat'ed, since the listing error reaches the callback first. *)
Theorem collectTextFiles_ignored_root
  (isDirectory : string -> bool) (Rel : string -> string -> option string)
  (Join : string -> string -> string) (Open : string -> OpenResult)
  (ToLower : string -> string) (rootDir : string) (ignorePatterns : list string)
  (rootNode : entry)
  (Hign : isPathIgnored isDirectory Rel rootDir rootDir ignorePatterns = true) :
  collectTextFiles isDirectory Rel Join Open ToLower rootDir ignorePatterns rootNode =
  match rootNode with
  | EFile _ | EDir _ (Some _) => Ok []
  | EDir _ None => Err (ErrReadDir rootDir)
  | EBroken _ => Err (ErrLstat rootDir)
  end.
Proof.
  unfold collectTextFiles, Walk.
  destruct rootNode as [n|n [cs|]|n]; cbn [walk]; unfold collectFn; try rewrite Hign; reflexivity.
Qed.

Lemma collectTextFiles_ignored_root_witness :
  isPathIgnored (fun _ => false) (fun b p => if String.eqb b p then Some "." else Some p)
    "/proj" "/proj" ["."] = true /\
  collectTextFiles (fun _ => false) (fun b p => if String.eqb b p then Some "." else Some p)
    (fun p n => (p ++ "/" ++ n)%string) (fun _ => Opened []) (fun s => s) "/proj" ["."]
    (EDir "proj" (Some [EFile "main.go"; EDir "locked" None])) = Ok [].
Proof.
  split; [reflexivity|].
  apply (collectTextFiles_ignored_root _ _ _ _ _ _ _
           (EDir "proj" (Some [EFile "main.go"; EDir "locked" None]))).
  reflexivity.
Defined.

(** The walk over children it walks without error goes on to the next one. *)
Lemma walk_children_app
  (isDirectory : string -> bool) (Rel : string -> string -> option string)
  (Join : string -> string -> string) (Open : string -> OpenResult)
  (ToLower : string -> string) (rootDir : string) (ignorePatterns : list string)
  (path : string) (pre post : list entry) (acc : list string) :
  forallb (fun c => walk_ok isDirectory Rel Join rootDir ignorePatterns (Join path (entry_name c)) c)
    pre = true ->
  exists acc',
    walk_children Join (collectFn isDirectory Rel Open ToLower rootDir ignorePatterns)
      (walk Join (collectFn isDirectory Rel Open ToLower rootDir ignorePatterns))
      path (pre ++ post)%list acc =
    walk_children Join (collectFn isDirectory Rel Open ToLower rootDir ignorePatterns)
      (walk Join (collectFn isDirectory Rel Open ToLower rootDir ignorePatterns))
      path post acc'.
Proof.
  revert acc; induction pre as [|c pre IH]; intros acc Hwl; [exists acc; reflexivity|].
  cbn [forallb] in Hwl. apply andb_true_iff in Hwl as [Hc Hpre].
  cbn [app walk_children].
  destruct (walk_collect_ok isDirectory Rel Join Open ToLower rootDir ignorePatterns
              c (Join path (entry_name c)) acc Hc) as [r [Hw Hr]].
  destruct c as [m|m l|m]; [| |discriminate Hc];
    rewrite Hw; destruct Hr as [->|[-> Hd]]; try discriminate Hd; cbn iota; apply IH; exact Hpre.
Qed.

(** X8: in a root that is not ignored, an entry directly under the root
    that is a directory that cannot be listed, or whose Lstat fails, makes
    [collectTextFiles] fail with exactly that error, whether or not the
    entry matches an ignore pattern, provided the walk of the entries
    before it meets no listing or Lstat error. *)
Theorem collectTextFiles_failing_child
  (isDirectory : string -> bool) (Rel : string -> string -> option string)
  (Join : string -> string -> string) (Open : string -> OpenResult)
  (ToLower : string -> string) (rootDir : string) (ignorePatterns : list string)
  (n m : string) (pre post : list entry)
  (Hroot : isPathIgnored isDirectory Rel rootDir rootDir ignorePatterns = false)
  (Hpre : forallb (fun c => walk_ok isDirectory Rel Join rootDir ignorePatterns
                              (Join rootDir (entry_name c)) c) pre = true) :
  collectTextFiles isDirectory Rel Join Open ToLower rootDir ignorePatterns
    (EDir n (Some (pre ++ EDir m None :: post)%list)) = Err (ErrReadDir (Join rootDir m)) /\
  collectTextFiles isDirectory Rel Join Open ToLower rootDir ignorePatterns
    (EDir n (Some (pre ++ EBroken m :: post)%list)) = Err (ErrLstat (Join rootDir m)).
Proof.
  assert (Hfn : collectFn isDirectory Rel Open ToLower rootDir ignorePatterns
                  rootDir (Some true) None [] = (WNil, [])).
  { unfold collectFn. rewrite Hroot. reflexivity. }
  unfold collectTextFiles, Walk. cbn [walk]. rewrite Hfn.
  split.
  - destruct (walk_children_app isDirectory Rel Join Open ToLower rootDir ignorePatterns
                rootDir pre (EDir m None :: post) [] Hpre) as [acc' Hacc].
    rewrite Hacc. reflexivity.
  - destruct (walk_children_app isDirectory Rel Join Open ToLower rootDir ignorePatterns
                rootDir pre (EBroken m :: post) [] Hpre) as [acc' Hacc].
    rewrite Hacc. reflexivity.
Qed.

Lemma collectTextFiles_failing_child_witness :
  let Join := fun p n => (p ++ "/" ++ n)%string in
  let pre := [EFile "a.txt"; EDir "tmp" (Some [EBroken "x"])] in
  isPathIgnored (fun _ => false) (fun _ p => Some p) "/proj" "/proj" ["cache"; "tmp"] = false /\
  forallb (fun c => walk_ok (fun _ => false) (fun _ p => Some p) Join "/proj" ["cache"; "tmp"]
                      (Join "/proj" (entry_name c)) c) pre = true /\
  collectTextFiles (fun _ => false) (fun _ p => Some p) Join (fun _ => Opened []) (fun s => s)
    "/proj" ["cache"; "tmp"] (EDir "proj" (Some (pre ++ EDir "cache" None :: [EFile "z.txt"])%list))
    = Err (ErrReadDir (Join "/proj" "cache")) /\
  collectTextFiles (fun _ => false) (fun _ p => Some p) Join (fun _ => Opened []) (fun s => s)
    "/proj" ["cache"; "tmp"] (EDir "proj" (Some (pre ++ EBroken "cache" :: [EFile "z.txt"])%list))
    = Err (ErrLstat (Join "/proj" "cache")).
Proof.
  intros Join pre. split; [vm_compute; reflexivity|]. split; [vm_compute; reflexivity|].
  apply collectTextFiles_failing_child; vm_compute; reflexivity.
Defined.

(** ** [printDir] and [generateTree] *)

Lemma insert_entry_perm (x : entry) (l : list entry) : Permutation (insert_entry x l) (x :: l).
Proof.
  induction l as [|y l IH]; cbn [insert_entry]; [reflexivity|].
  destruct (String.ltb (entry_name x) (entry_name y)); [reflexivity|].
  rewrite IH. apply perm_swap.
Qed.

Lemma sort_entries_perm (l : list entry) : Permutation (sort_entries l) l.
Proof.
  induction l as [|x l IH]; cbn [sort_entries]; [reflexivity|].
  rewrite insert_entry_perm, IH. reflexivity.
Qed.

Lemma forallb_perm {A} (f : A -> bool) (l l' : list A) :
  Permutation l l' -> forallb f l = forallb f l'.
Proof.
  intros Hp. apply eq_true_iff_eq. rewrite !forallb_forall. split; intros H x Hx.
  - apply H. apply (Permutation_in x (Permutation_sym Hp) Hx).
  - apply H. apply (Permutation_in x Hp Hx).
Qed.

Lemma entry_size_in (c : entry) (cs : list entry) :
  In c cs -> (entry_size c <= list_sum (map entry_size cs))%nat.
Proof.
  induction cs as [|d cs IH]; intros Hin; [destruct Hin|].
  change (list_sum (map entry_size (d :: cs))) with (entry_size d + list_sum (map entry_size cs))%nat.
  destruct Hin as [->|Hin]; [lia|]. specialize (IH Hin). lia.
Qed.

Lemma forallb_ext_in {A} (f g : A -> bool) (l : list A) :
  (forall x, In x l -> f x = g x) -> forallb f l = forallb g l.
Proof.
  induction l as [|x l IH]; intros H; [reflexivity|]. cbn [forallb].
  rewrite (H x (or_introl eq_refl)), IH by (intros; apply H; right; assumption). reflexivity.
Qed.

Section ReadDirFacts.

Variable Join : string -> string -> string.
Variable direntType : string -> dirent_type.
Variable dir : string.

(** An entry [os.ReadDir] returns is one of the listing, and not one whose
    Lstat it could not do. *)
Lemma readDir_in (cs files : list entry) :
  readDir Join direntType dir cs = Ok files ->
  forall c, In c files -> In c cs /\
    (forall n, c = EBroken n -> direntType (Join dir n) = DTDir \/ direntType (Join dir n) = DTOther).
Proof.
  revert files; induction cs as [|d cs IH]; intros files H c Hin.
  - injection H as <-. destruct Hin.
  - cbn [readDir] in H.
    assert (Hrest : forall l, readDir Join direntType dir cs = Ok l -> Ok (d :: l) = Ok files ->
              In c files -> In c (d :: cs) /\
              (forall n, c = EBroken n -> direntType (Join dir n) = DTDir \/ direntType (Join dir n) = DTOther)).
    { intros l Hl Hf Hin'. injection Hf as <-. destruct Hin' as [<-|Hin'].
      - split; [left; reflexivity|]. intros n ->. revert H.
        destruct (direntType (Join dir n)); auto; [|discriminate].
        rewrite Hl. intros H. injection H as Hc. exfalso.
        assert (Hlen := f_equal (@length entry) Hc). cbn [length] in Hlen. lia.
      - destruct (IH l Hl c Hin') as [Hc Hb]. split; [right; exact Hc|exact Hb]. }
    destruct d as [m|m o|m].
    + destruct (readDir Join direntType dir cs) as [l|e]; [|discriminate]. exact (Hrest l eq_refl H Hin).
    + destruct (readDir Join direntType dir cs) as [l|e]; [|discriminate]. exact (Hrest l eq_refl H Hin).
    + destruct (direntType (Join dir m)) eqn:Et.
      * destruct (readDir Join direntType dir cs) as [l|e]; [|discriminate]. exact (Hrest l eq_refl H Hin).
      * destruct (readDir Join direntType dir cs) as [l|e]; [|discriminate]. exact (Hrest l eq_refl H Hin).
      * destruct (IH files H c Hin) as [Hc Hb]. split; [right; exact Hc|exact Hb].
      * discriminate H.
Qed.

(** A predicate that holds of every entry [os.ReadDir] drops holds of the
    whole listing exactly when it holds of what [os.ReadDir] returns. *)
Lemma readDir_forallb (T : entry -> bool) (cs files : list entry) :
  (forall n, direntType (Join dir n) = DTGone -> T (EBroken n) = true) ->
  readDir Join direntType dir cs = Ok files ->
  forallb T cs = forallb T files.
Proof.
  intros Hg. revert files; induction cs as [|d cs IH]; intros files H.
  - injection H as <-. reflexivity.
  - cbn [readDir] in H. cbn [forallb].
    destruct d as [m|m o|m].
    1,2: destruct (readDir Join direntType dir cs) as [l|e] eqn:El; [|discriminate];
      injection H as <-; cbn [forallb]; rewrite (IH l eq_refl); reflexivity.
    destruct (direntType (Join dir m)) eqn:Et.
    1,2: destruct (readDir Join direntType dir cs) as [l|e] eqn:El; [|discriminate];
      injection H as <-; cbn [forallb]; rewrite (IH l eq_refl); reflexivity.
    + rewrite (Hg m Et), (IH files H). reflexivity.
    + discriminate H.
Qed.

(** [os.ReadDir] fails only on an entry whose Lstat it could not do. *)
Lemma readDir_err (T : entry -> bool) (cs : list entry) (e : error) :
  (forall n, direntType (Join dir n) = DTFail -> T (EBroken n) = false) ->
  readDir Join direntType dir cs = Err e ->
  forallb T cs = false.
Proof.
  intros Hf. revert e; induction cs as [|d cs IH]; intros e H; [discriminate H|].
  cbn [readDir] in H. cbn [forallb].
  destruct d as [m|m o|m].
  1,2: destruct (readDir Join direntType dir cs) as [l|e'] eqn:El; [discriminate|];
    rewrite (IH e' eq_refl); apply andb_false_r.
  destruct (direntType (Join dir m)) eqn:Et.
  1,2: destruct (readDir Join direntType dir cs) as [l|e'] eqn:El; [discriminate|];
    rewrite (IH e' eq_refl); apply andb_false_r.
  - rewrite (IH e H). apply andb_false_r.
  - rewrite (Hf m Et). reflexivity.
Qed.

End ReadDirFacts.

Lemma printDir_loop_err (Join : string -> string -> string) (direntType : string -> dirent_type)
  (pd : string -> entry -> string -> string -> option error * string)
  (dir prefix : string) (Q : entry -> bool) :
  forall l buf,
  (forall c, In c l -> dirent_is_dir Join direntType dir c = true ->
     forall pre b, fst (pd (Join dir (entry_name c)) c pre b) = None <-> Q c = true) ->
  (fst (printDir_loop Join direntType pd dir prefix l buf) = None <->
   forallb (fun c => negb (dirent_is_dir Join direntType dir c) || Q c) l = true).
Proof.
  induction l as [|c l IH]; intros buf H; [split; reflexivity|].
  cbn [printDir_loop forallb].
  destruct (dirent_is_dir Join direntType dir c) eqn:Ed.
  - match goal with |- context [pd (Join dir (entry_name c)) c ?pre ?b] =>
      pose proof (H c (or_introl eq_refl) Ed pre b) as Hc;
      destruct (pd (Join dir (entry_name c)) c pre b) as [[e|] b'] end.
    + cbn [fst] in Hc |- *. split; [discriminate|].
      intros Hf. apply andb_true_iff in Hf as [Hq _]. apply Hc in Hq. discriminate Hq.
    + cbn [fst] in Hc. rewrite IH by (intros; apply H; [right|]; assumption).
      cbn [negb orb]. destruct (Q c) eqn:Eq.
      * reflexivity.
      * split; [|discriminate]. intros _. assert (Hn : None = @None error) by reflexivity.
        apply Hc in Hn. discriminate Hn.
  - cbn [negb orb andb]. apply IH. intros; apply H; [right|]; assumption.
Qed.

Lemma printDir_err (isDirectory : string -> bool) (Rel : string -> string -> option string)
  (Join : string -> string -> string) (direntType : string -> dirent_type)
  (rootDir : string) (ignorePatterns : list string) :
  forall node fuel dir prefix buf, (entry_size node <= fuel)%nat ->
  (fst (printDir isDirectory Rel Join direntType rootDir ignorePatterns fuel dir node prefix buf) = None <->
   tree_listable isDirectory Rel Join direntType rootDir ignorePatterns dir node = true).
Proof.
  induction node as [n|n cs HF|n|n] using entry_ind2;
    intros fuel dir prefix buf Hsz; (destruct fuel as [|f]; [cbn in Hsz; lia|]).
  - cbn. split; discriminate.
  - cbn [printDir tree_listable].
    set (ign := fun c => isPathIgnored isDirectory Rel (Join dir (entry_name c)) rootDir ignorePatterns).
    set (Qd := fun c => tree_listable isDirectory Rel Join direntType rootDir ignorePatterns
                          (Join dir (entry_name c)) c).
    destruct (readDir Join direntType dir cs) as [files|e] eqn:Hrd.
    2:{ cbn [fst]. split; [discriminate|]. intros Ht. rewrite (readDir_err Join direntType dir _ cs e) in Ht;
        [discriminate Ht| |exact Hrd]. intros m Hm. rewrite Hm. reflexivity. }
    rewrite (readDir_forallb Join direntType dir _ cs files) by
      (try exact Hrd; intros m Hm; rewrite Hm; reflexivity).
    rewrite (forallb_ext_in _ (fun c => ign c || negb (dirent_is_dir Join direntType dir c) || Qd c)).
    2:{ intros c Hc. destruct (readDir_in Join direntType dir cs files Hrd c Hc) as [_ Hb].
        unfold ign, Qd. destruct c as [m|m o|m]; [reflexivity|reflexivity|].
        cbn [dirent_is_dir entry_name tree_listable].
        destruct (Hb m eq_refl) as [Ht|Ht]; rewrite Ht;
          destruct (isPathIgnored isDirectory Rel (Join dir m) rootDir ignorePatterns); reflexivity. }
    assert (Hf : forall l,
      forallb (fun c => ign c || negb (dirent_is_dir Join direntType dir c) || Qd c) l =
      forallb (fun c => negb (dirent_is_dir Join direntType dir c) || Qd c)
        (filter (fun file => negb (isPathIgnored isDirectory Rel (Join dir (entry_name file))
                                     rootDir ignorePatterns)) l)).
    { induction l as [|c l IHl]; [reflexivity|]. cbn [forallb filter]. unfold ign at 1.
      destruct (isPathIgnored isDirectory Rel (Join dir (entry_name c)) rootDir ignorePatterns);
        cbn [orb negb]; [exact IHl|]. cbn [forallb]. rewrite IHl. reflexivity. }
    rewrite Hf.
    assert (Hsub : forall l, incl l files ->
      fst (printDir_loop Join direntType
             (printDir isDirectory Rel Join direntType rootDir ignorePatterns f) dir prefix
             (sort_entries l) buf) = None <->
      forallb (fun c => negb (dirent_is_dir Join direntType dir c) || Qd c) l = true).
    { intros l Hl. rewrite <- (forallb_perm _ _ _ (sort_entries_perm l)).
      rewrite printDir_loop_err; [reflexivity|].
      intros c Hin _ pre b.
      apply (Permutation_in c (sort_entries_perm l)), Hl in Hin.
      apply (readDir_in Join direntType dir cs files Hrd) in Hin as [Hin _].
      rewrite Forall_forall in HF. apply (HF c Hin).
      cbn [entry_size] in Hsz. pose proof (entry_size_in c cs Hin). lia. }
    unfold Qd in Hsub.
    destruct (filter _ files) as [|v vs] eqn:Hv; [split; reflexivity|].
    rewrite <- Hv. apply Hsub. intros x Hx. apply filter_In in Hx as [Hx _]. exact Hx.
  - cbn. split; discriminate.
  - cbn. split; discriminate.
Qed.

(** X9: [generateTree] reports an error exactly when a directory it has
    to list cannot be listed: the root (also when it is not a directory),
    or a non-ignored entry that the listing of a listed directory reports
    as a directory; or when a listed directory holds an entry whose type
    [os.ReadDir] must Lstat and cannot.  Ignored entries are never listed,
    so an ignored unlistable directory cannot make it fail. *)
Theorem generateTree_error_iff (isDirectory : string -> bool) (Rel : string -> string -> option string)
  (Join : string -> string -> string) (direntType : string -> dirent_type)
  (rootDir : string) (ignorePatterns : list string) (rootNode : entry) :
  snd (generateTree isDirectory Rel Join direntType rootDir ignorePatterns rootNode) = None <->
  tree_listable isDirectory Rel Join direntType rootDir ignorePatterns rootDir rootNode = true.
Proof.
  unfold generateTree.
  match goal with |- context [printDir _ _ _ _ _ _ _ _ _ _ ?b] =>
    pose proof (printDir_err isDirectory Rel Join direntType rootDir ignorePatterns rootNode
                  (entry_size rootNode) rootDir "" b (le_n _)) as H;
    destruct (printDir isDirectory Rel Join direntType rootDir ignorePatterns (entry_size rootNode)
                rootDir rootNode "" b) as [err b'] end.
  exact H.
Qed.

(** ** The wildcard branch of [matchesGitIgnorePattern] *)

Lemma match_chunk_failed (fuel : nat) :
  forall chunk s, match match_chunk fuel chunk s true with Some (Some _) => False | _ => True end.
Proof.
  induction fuel as [|f IH]; intros chunk s; [exact I|].
  cbn [match_chunk]. destruct chunk as [|c crest]; [exact I|].
  cbn [orb].
  destruct (char_eqb c "[").
  - destruct (match crest with String "^" c' => (true, c') | _ => (false, crest) end) as [negated chunk1].
    destruct (ranges _ chunk1 0%Z false false) as [[m chunk2]|]; [apply IH|exact I].
  - destruct (char_eqb c "?"); [apply IH|].
    destruct (if char_eqb c "\" then match crest with EmptyString => None
                                    | String d crest' => Some (d, crest') end
              else Some (c, crest)) as [[d crest']|]; [apply IH|exact I].
Qed.

Lemma check_rest_not_true (fuel : nat) :
  forall p, check_rest fuel p <> Some true.
Proof.
  induction fuel as [|f IH]; intros p; [discriminate|].
  cbn [check_rest]. destruct p as [|c r]; [discriminate|].
  destruct (scanChunk (String c r)) as [[star chunk] rest].
  destruct (matchChunk chunk ""); [apply IH|discriminate].
Qed.

Lemma scanChunk_lead (c : ascii) (r : string) :
  c = "^"%char \/ c = "."%char ->
  scanChunk (String c r) = (false, String c (fst (scan false r)), snd (scan false r)).
Proof.
  intros [-> | ->]; unfold scanChunk; cbn [strip_stars];
    cbn [scan char_eqb Ascii.eqb Bool.eqb andb negb];
    destruct (scan false r); reflexivity.
Qed.

Lemma matchChunk_lead_fail (c : ascii) (ch name : string) :
  c = "^"%char \/ c = "."%char -> HasPrefix name (String c "") = false ->
  match matchChunk (String c ch) name with Some (Some _) => False | _ => True end.
Proof.
  intros Hc Hn. unfold matchChunk. cbn [String.length].
  remember (S (String.length ch)) as k eqn:Hk. clear Hk.
  cbn [match_chunk].
  destruct name as [|c0 s0].
  - destruct Hc as [-> | ->]; cbn [char_eqb Ascii.eqb Bool.eqb andb orb is_empty];
      apply match_chunk_failed.
  - assert (E : char_eqb c c0 = false).
    { cbn [HasPrefix] in Hn. destruct (char_eqb c c0); [destruct s0; discriminate Hn|reflexivity]. }
    destruct Hc as [-> | ->]; cbn [char_eqb Ascii.eqb Bool.eqb andb orb is_empty] in E |- *;
      rewrite E; cbn [negb]; apply match_chunk_failed.
Qed.

(** A glob that starts with '^' or '.' matches only names that start
    with the same byte. *)
Lemma Match_lead (c : ascii) (r name : string) :
  c = "^"%char \/ c = "."%char ->
  Match (String c r) name = Some true -> HasPrefix name (String c "") = true.
Proof.
  intros Hc H. destruct (HasPrefix name (String c "")) eqn:En; [reflexivity|exfalso].
  unfold Match in H. cbn [String.length] in H.
  remember (S (String.length r)) as k eqn:Hk. clear Hk.
  cbn [go_match] in H. rewrite (scanChunk_lead c r Hc) in H.
  cbn [andb] in H.
  pose proof (matchChunk_lead_fail c (fst (scan false r)) name Hc En) as Hm.
  destruct (matchChunk (String c (fst (scan false r))) name) as [[t|]|];
    [destruct Hm| |discriminate H].
  exact (check_rest_not_true _ _ H).
Qed.

Lemma regexPatternOf_lead (pattern : string) :
  exists r, regexPatternOf pattern =
            String (if HasPrefix pattern "*" then "."%char else "^"%char) r.
Proof.
  unfold regexPatternOf.
  destruct (HasPrefix pattern "*") eqn:Hp.
  - pose proof Hp as Hp'. apply HasPrefix_iff in Hp' as [p' Hpat].
    destruct (HasSuffix pattern "*"); cbn [negb]; subst pattern;
      cbn [append ReplaceAllChar char_eqb Ascii.eqb Bool.eqb andb]; eexists; reflexivity.
  - cbn [negb append]. destruct (negb (HasSuffix pattern "*")); eexists; reflexivity.
Qed.

Lemma SplitChar_first (path : string) (c : ascii) :
  HasPrefix path (String c "") = true -> char_eqb c "/" = false ->
  exists seg, In seg (SplitChar path "/") /\ HasPrefix seg (String c "") = true.
Proof.
  intros Hp Hc. destruct path as [|c0 t]; [discriminate Hp|].
  cbn [HasPrefix] in Hp. apply andb_true_iff in Hp as [Hcc _].
  unfold char_eqb in Hcc. apply Ascii.eqb_eq in Hcc. subst c0.
  cbn [SplitChar]. rewrite Hc.
  assert (Hh : forall h, HasPrefix (String c h) (String c "") = true).
  { intros h. cbn [HasPrefix]. unfold char_eqb. rewrite Ascii.eqb_refl. destruct h; reflexivity. }
  destruct (SplitChar t "/") as [|h tl].
  - exists (String c ""). split; [left; reflexivity|apply Hh].
  - exists (String c h). split; [left; reflexivity|apply Hh].
Qed.

(** X10: a pattern that contains '*' (and does not end in '/') matches a
    path only if some '/'-separated segment of the path starts with '.'
    (pattern starting with '*') or with '^' (any other such pattern):
    the wildcard branch hands [filepath.Match] a glob that begins with
    one of these literal bytes. *)
Theorem wildcard_pattern_needs_lead_segment (isDirectory : string -> bool) (path pattern : string)
  (Hstar : ContainsChar pattern "*" = true) (Hslash : HasSuffix pattern "/" = false)
  (Hm : matchesGitIgnorePattern isDirectory path pattern = true) :
  exists seg, In seg (SplitChar path "/") /\
    HasPrefix seg (if HasPrefix pattern "*" then "." else "^") = true.
Proof.
  unfold matchesGitIgnorePattern, FilePath.ToSlash in Hm.
  rewrite Hslash in Hm. cbn [andb] in Hm. rewrite Hstar in Hm.
  destruct (regexPatternOf_lead pattern) as [r Hr]. rewrite Hr in Hm.
  assert (Hlead : forall seg,
    Match (String (if HasPrefix pattern "*" then "."%char else "^"%char) r) seg = Some true ->
    HasPrefix seg (if HasPrefix pattern "*" then "." else "^") = true).
  { intros seg Hs. destruct (HasPrefix pattern "*");
      apply (Match_lead _ r seg); auto. }
  destruct (Match (String (if HasPrefix pattern "*" then "."%char else "^"%char) r) path)
    as [[|]|] eqn:EM; cbn [matched_of] in Hm.
  - apply Hlead in EM. destruct (HasPrefix pattern "*");
      (apply SplitChar_first; [exact EM|reflexivity]).
  - apply existsb_exists in Hm as [seg [Hin Hs]]. exists seg. split; [exact Hin|].
    apply Hlead. destruct (Match _ seg) as [[|]|]; [reflexivity|discriminate Hs|discriminate Hs].
  - apply existsb_exists in Hm as [seg [Hin Hs]]. exists seg. split; [exact Hin|].
    apply Hlead. destruct (Match _ seg) as [[|]|]; [reflexivity|discriminate Hs|discriminate Hs].
Qed.

Lemma wildcard_pattern_needs_lead_segment_witness :
  ContainsChar "*" "*" = true /\ HasSuffix "*" "/" = false /\
  matchesGitIgnorePattern (fun _ => false) "src/.env" "*" = true /\
  exists seg, In seg (SplitChar "src/.env" "/") /\
    HasPrefix seg (if HasPrefix "*" "*" then "." else "^") = true.
Proof.
  split; [reflexivity|]. split; [reflexivity|]. split; [vm_compute; reflexivity|].
  apply (wildcard_pattern_needs_lead_segment (fun _ => false) "src/.env" "*");
    [reflexivity|reflexivity|vm_compute; reflexivity].
Defined.

(** ** What [collectTextFiles] can return *)

Section WalkInvariant.

Variable Join : string -> string -> string.
Context {S : Type}.
Variable walkFn : string -> option bool -> option error -> S -> walk_ret * S.
Variable I : S -> Prop.
Hypothesis HfnI : forall path info err st, I st -> I (snd (walkFn path info err st)).

Lemma walk_children_inv (w : string -> entry -> S -> walk_ret * S) (path : string) :
  forall cs st,
  Forall (fun c => forall p st, I st -> I (snd (w p c st))) cs -> I st ->
  I (snd (walk_children Join walkFn w path cs st)).
Proof.
  induction cs as [|c cs IH]; intros st Hcs Hst; [exact Hst|].
  inversion Hcs as [|c' cs' Hc Hcs']; subst.
  cbn [walk_children].
  destruct c as [m|m l|m].
  - pose proof (Hc (Join path (entry_name (EFile m))) st Hst) as H.
    destruct (w _ _ st) as [[| |e] st']; cbn [snd] in H |- *; try exact H; apply IH; assumption.
  - pose proof (Hc (Join path (entry_name (EDir m l))) st Hst) as H.
    destruct (w _ _ st) as [[| |e] st']; cbn [snd entry_is_dir] in H |- *; try exact H;
      apply IH; assumption.
  - pose proof (HfnI (Join path (entry_name (EBroken m))) None
                  (Some (ErrLstat (Join path (entry_name (EBroken m))))) st Hst) as H.
    destruct (walkFn _ _ _ st) as [[| |e] st']; cbn [snd] in H |- *; try exact H;
      apply IH; assumption.
Qed.

Lemma walk_inv (node : entry) :
  forall path st, I st -> I (snd (walk Join walkFn path node st)).
Proof.
  induction node as [n|n cs HF|n|n] using entry_ind2; intros path st Hst; cbn [walk].
  - apply HfnI, Hst.
  - pose proof (HfnI path (Some true) None st Hst) as H.
    destruct (walkFn path (Some true) None st) as [[| |e] st1]; cbn [snd] in H |- *;
      try exact H.
    apply walk_children_inv; [exact HF|exact H].
  - pose proof (HfnI path (Some true) (Some (ErrReadDir path)) st Hst) as H.
    destruct (walkFn _ _ _ st) as [r st1]. exact H.
  - apply HfnI, Hst.
Qed.

Lemma Walk_inv (root : string) (rootNode : entry) (st : S) :
  I st -> I (snd (Walk Join walkFn root rootNode st)).
Proof.
  intros Hst. unfold Walk.
  assert (H : I (snd (match rootNode with
                      | EBroken _ => walkFn root None (Some (ErrLstat root)) st
                      | _ => walk Join walkFn root rootNode st
                      end))).
  { destruct rootNode; [apply walk_inv, Hst|apply walk_inv, Hst|apply HfnI, Hst]. }
  destruct (match rootNode with
            | EBroken _ => walkFn root None (Some (ErrLstat root)) st
            | _ => walk Join walkFn root rootNode st
            end) as [[| |e] st']; exact H.
Qed.

End WalkInvariant.

Lemma insert_string_perm (x : string) (l : list string) : Permutation (insert_string x l) (x :: l).
Proof.
  induction l as [|y l IH]; cbn [insert_string]; [reflexivity|].
  destruct (String.leb x y); [reflexivity|].
  rewrite IH. apply perm_swap.
Qed.

Lemma sort_strings_perm (l : list string) : Permutation (sort_strings l) l.
Proof.
  induction l as [|x l IH]; cbn [sort_strings]; [reflexivity|].
  rewrite insert_string_perm, IH. reflexivity.
Qed.

(** X11: whatever the tree (also one with unreadable parts), every path
    in a list returned by [collectTextFiles] is not ignored and was
    classified as text. *)
Theorem collectTextFiles_returns_text_files
  (isDirectory : string -> bool) (Rel : string -> string -> option string)
  (Join : string -> string -> string) (Open : string -> OpenResult)
  (ToLower : string -> string) (rootDir : string) (ignorePatterns : list string)
  (rootNode : entry) :
  match collectTextFiles isDirectory Rel Join Open ToLower rootDir ignorePatterns rootNode with
  | Ok l => forall p, In p l ->
      isPathIgnored isDirectory Rel p rootDir ignorePatterns = false /\
      isTextFile Open ToLower p = Ok true
  | Err _ => True
  end.
Proof.
  set (Inv := fun acc : list string => forall p, In p acc ->
      isPathIgnored isDirectory Rel p rootDir ignorePatterns = false /\
      isTextFile Open ToLower p = Ok true).
  assert (Hfn : forall path info err st, Inv st ->
    Inv (snd (collectFn isDirectory Rel Open ToLower rootDir ignorePatterns path info err st))).
  { intros path info err st Hst. unfold collectFn.
    destruct err as [e|]; [exact Hst|].
    destruct (isPathIgnored isDirectory Rel path rootDir ignorePatterns) eqn:Eig; [exact Hst|].
    destruct (match info with Some d => d | None => false end); [exact Hst|].
    destruct (isTextFile Open ToLower path) as [[|]|] eqn:Et; try exact Hst.
    unfold Inv; cbn [snd]. intros p Hp. apply in_app_or in Hp as [Hp|[<-|[]]]; [exact (Hst p Hp)|auto]. }
  pose proof (Walk_inv Join _ Inv Hfn rootDir rootNode [] ltac:(intros p [])) as H.
  unfold collectTextFiles.
  destruct (Walk Join _ rootDir rootNode []) as [[| |e] fl]; cbn [snd] in H; unfold Inv in H;
    try exact I; intros p Hp; apply H; apply (Permutation_in p (sort_strings_perm fl) Hp).
Qed.

(** ** [processDirectory] *)





Lemma count_nl_app (a b : string) : count_nl (a ++ b) = (count_nl a + count_nl b)%nat.
Proof. induction a as [|c a IH]; cbn [append count_nl]; [reflexivity|]. rewrite IH. lia. Qed.

Lemma count_nl_no_newline (s : string) : ContainsChar s newline = false -> count_nl s = 0.
Proof.
  induction s as [|c s IH]; cbn [ContainsChar count_nl]; [reflexivity|].
  intros H. apply orb_false_iff in H as [H1 H2]. rewrite H1, IH by exact H2. reflexivity.
Qed.

Lemma list_sum_map_perm {A} (f : A -> nat) (l l' : list A) :
  Permutation l l' -> list_sum (map f l) = list_sum (map f l').
Proof.
  induction 1; unfold list_sum in *; cbn [map fold_right] in *; lia.
Qed.

Lemma list_sum_map_filter {A} (p : A -> bool) (g : A -> nat) (l : list A) :
  list_sum (map (fun c => if p c then 0 else g c) l) =
  list_sum (map g (filter (fun c => negb (p c)) l)).
Proof.
  induction l as [|c l IH]; [reflexivity|]. cbn [map filter].
  unfold list_sum in *. destruct (p c); cbn [negb map fold_right] in *; lia.
Qed.

Lemma printDir_loop_lines (Join : string -> string -> string) (direntType : string -> dirent_type)
  (pd : string -> entry -> string -> string -> option error * string)
  (dir prefix : string) (V : entry -> nat) :
  count_nl prefix = 0 ->
  forall l buf,
  forallb (fun c => negb (ContainsChar (entry_name c) newline)) l = true ->
  (forall c, In c l -> dirent_is_dir Join direntType dir c = true -> forall pre b, count_nl pre = 0 ->
     fst (pd (Join dir (entry_name c)) c pre b) = None ->
     count_nl (snd (pd (Join dir (entry_name c)) c pre b)) = (count_nl b + V c)%nat) ->
  fst (printDir_loop Join direntType pd dir prefix l buf) = None ->
  count_nl (snd (printDir_loop Join direntType pd dir prefix l buf)) =
  (count_nl buf + list_sum (map (fun c => S (if dirent_is_dir Join direntType dir c then V c else 0)) l))%nat.
Proof.
  intros Hpre. induction l as [|c l IH]; intros buf Hn Hpd Hok.
  - cbn. lia.
  - cbn [forallb] in Hn. apply andb_true_iff in Hn as [Hc Hn].
    apply negb_true_iff, count_nl_no_newline in Hc.
    cbn [printDir_loop] in Hok |- *.
    set (isl := match l with [] => true | _ => false end) in *.
    assert (Hbr : count_nl (if isl then "`-- " else "|-- ") = 0) by (destruct isl; reflexivity).
    assert (Hnp : count_nl (if isl then prefix ++ "    " else prefix ++ "|   ") = 0)
      by (destruct isl; rewrite count_nl_app, Hpre; reflexivity).
    set (br := if isl then "`-- " else "|-- ") in *.
    set (np := if isl then prefix ++ "    " else prefix ++ "|   ") in *.
    set (B := buf ++ (prefix ++ br ++ entry_name c)) in *.
    assert (HB : count_nl B = count_nl buf)
      by (unfold B; rewrite !count_nl_app, Hpre, Hbr, Hc; lia).
    change (list_sum (map (fun c => S (if dirent_is_dir Join direntType dir c then V c else 0)) (c :: l)))
      with (S (if dirent_is_dir Join direntType dir c then V c else 0) +
            list_sum (map (fun c => S (if dirent_is_dir Join direntType dir c then V c else 0)) l))%nat.
    assert (Hpd' : forall c, In c l -> dirent_is_dir Join direntType dir c = true -> forall pre b, count_nl pre = 0 ->
      fst (pd (Join dir (entry_name c)) c pre b) = None ->
      count_nl (snd (pd (Join dir (entry_name c)) c pre b)) = (count_nl b + V c)%nat)
      by (intros; apply Hpd; [right|..]; assumption).
    destruct (dirent_is_dir Join direntType dir c) eqn:Ed.
    + pose proof (Hpd c (or_introl eq_refl) Ed np (B ++ ("/" ++ nl)) Hnp) as Hc'.
      destruct (pd (Join dir (entry_name c)) c np (B ++ ("/" ++ nl))) as [[e|] b'].
      * discriminate Hok.
      * cbn [fst snd] in Hc'. specialize (Hc' eq_refl).
        rewrite (IH b' Hn Hpd' Hok), Hc', count_nl_app, HB. cbn. lia.
    + rewrite (IH _ Hn Hpd' Hok), count_nl_app, HB. cbn. lia.
Qed.

(** Summing over a listing is summing over what [os.ReadDir] returns, when
    the entries it drops count zero. *)
Lemma readDir_sum (Join : string -> string -> string) (direntType : string -> dirent_type)
  (dir : string) (F : entry -> nat) (cs files : list entry) :
  (forall n, direntType (Join dir n) = DTGone -> F (EBroken n) = 0) ->
  readDir Join direntType dir cs = Ok files ->
  list_sum (map F cs) = list_sum (map F files).
Proof.
  intros Hg. revert files; induction cs as [|d cs IH]; intros files H.
  - injection H as <-. reflexivity.
  - cbn [readDir] in H. cbn [map].
    change (list_sum (F d :: map F cs)) with (F d + list_sum (map F cs))%nat.
    destruct d as [m|m o|m].
    1,2: destruct (readDir Join direntType dir cs) as [l|e] eqn:El; [|discriminate];
      injection H as <-; cbn [map]; rewrite (IH l eq_refl); reflexivity.
    destruct (direntType (Join dir m)) eqn:Et.
    1,2: destruct (readDir Join direntType dir cs) as [l|e] eqn:El; [|discriminate];
      injection H as <-; cbn [map]; rewrite (IH l eq_refl); reflexivity.
    + rewrite (Hg m Et), (IH files H). reflexivity.
    + discriminate H.
Qed.

Lemma printDir_lines (isDirectory : string -> bool) (Rel : string -> string -> option string)
  (Join : string -> string -> string) (direntType : string -> dirent_type)
  (rootDir : string) (ignorePatterns : list string) :
  forall node fuel dir prefix buf, (entry_size node <= fuel)%nat ->
  names_no_nl node = true -> count_nl prefix = 0 ->
  fst (printDir isDirectory Rel Join direntType rootDir ignorePatterns fuel dir node prefix buf) = None ->
  count_nl (snd (printDir isDirectory Rel Join direntType rootDir ignorePatterns fuel dir node prefix buf)) =
  (count_nl buf + visible_count isDirectory Rel Join direntType rootDir ignorePatterns dir node)%nat.
Proof.
  induction node as [n|n cs HF|n|n] using entry_ind2;
    intros fuel dir prefix buf Hsz Hnl Hpre Hok; (destruct fuel as [|f]; [cbn in Hsz; lia|]).
  - discriminate Hok.
  - cbn [printDir] in Hok |- *. cbn [visible_count names_no_nl] in Hnl |- *.
    destruct (readDir Join direntType dir cs) as [files|e] eqn:Hrd; [|discriminate Hok].
    rewrite (readDir_sum Join direntType dir _ cs files) by
      (try exact Hrd; intros m Hm; rewrite Hm; reflexivity).
    set (G := fun c => S (if dirent_is_dir Join direntType dir c
                          then visible_count isDirectory Rel Join direntType rootDir ignorePatterns
                                 (Join dir (entry_name c)) c
                          else 0)).
    set (ign := fun c => isPathIgnored isDirectory Rel (Join dir (entry_name c)) rootDir ignorePatterns).
    rewrite (map_ext_in _ (fun c => if ign c then 0 else G c) files).
    2:{ intros c Hc. destruct (readDir_in Join direntType dir cs files Hrd c Hc) as [_ Hb].
        unfold ign, G. destruct c as [m|m o|m]; [reflexivity|reflexivity|].
        cbn [dirent_is_dir entry_name visible_count].
        destruct (Hb m eq_refl) as [Ht|Ht]; rewrite Ht; reflexivity. }
    rewrite (list_sum_map_filter ign G). unfold ign.
    set (vis := filter _ files) in *.
    assert (Hincl : forall c, In c (sort_entries vis) -> In c cs).
    { intros c Hin. apply (Permutation_in c (sort_entries_perm vis)) in Hin.
      apply filter_In in Hin as [Hin _].
      exact (proj1 (readDir_in Join direntType dir cs files Hrd c Hin)). }
    rewrite forallb_forall in Hnl.
    destruct vis as [|v vs] eqn:Hv; [cbn; lia|]. rewrite <- Hv in Hok, Hincl |- *.
    rewrite (list_sum_map_perm _ _ _ (Permutation_sym (sort_entries_perm vis))).
    apply printDir_loop_lines; [exact Hpre| | |exact Hok].
    + apply forallb_forall. intros c Hin. apply Hincl, Hnl, andb_true_iff in Hin as [H _]. exact H.
    + intros c Hin _ pre b Hp Hc. apply Hincl in Hin.
      rewrite Forall_forall in HF. apply (HF c Hin); [|apply Hnl in Hin; apply andb_true_iff in Hin as [_ H]; exact H|exact Hp|exact Hc].
      cbn [entry_size] in Hsz. pose proof (entry_size_in c cs Hin). lia.
  - discriminate Hok.
  - discriminate Hok.
Qed.

(** X13: when [generateTree] succeeds, the tree has one line for the root
    and one line for every entry it shows (each non-ignored entry that
    [os.ReadDir] returns for each listed directory, at any depth),
    provided no entry name and not the root's base name contains a
    newline. *)
Theorem generateTree_one_line_per_entry (isDirectory : string -> bool)
  (Rel : string -> string -> option string) (Join : string -> string -> string)
  (direntType : string -> dirent_type)
  (rootDir : string) (ignorePatterns : list string) (rootNode : entry)
  (Hok : snd (generateTree isDirectory Rel Join direntType rootDir ignorePatterns rootNode) = None)
  (Hnames : names_no_nl rootNode = true)
  (Hbase : ContainsChar (FilePath.Base rootDir) newline = false) :
  count_nl (fst (generateTree isDirectory Rel Join direntType rootDir ignorePatterns rootNode)) =
  S (visible_count isDirectory Rel Join direntType rootDir ignorePatterns rootDir rootNode).
Proof.
  unfold generateTree in *.
  match goal with |- context [printDir _ _ _ _ _ _ _ _ _ _ ?b] =>
    pose proof (printDir_lines isDirectory Rel Join direntType rootDir ignorePatterns rootNode
                  (entry_size rootNode) rootDir "" b (le_n _) Hnames eq_refl) as H;
    destruct (printDir isDirectory Rel Join direntType rootDir ignorePatterns (entry_size rootNode)
                rootDir rootNode "" b) as [err b'] end.
  cbn [fst snd] in *. rewrite (H Hok), count_nl_app, (count_nl_no_newline _ Hbase). reflexivity.
Qed.

(** [node_modules] is ignored, [stale] is dropped by [os.ReadDir] and
    [sock] is listed as a non-directory: four lines. *)
Lemma generateTree_one_line_per_entry_witness :
  let Join := fun p n => (p ++ "/" ++ n)%string in
  let Rel := fun b p => if String.eqb b p then Some "." else Some p in
  let DT := fun p => if String.eqb p "/proj/stale" then DTGone else DTOther in
  let tree := EDir "proj" (Some [EFile "main.go"; EDir "docs" (Some [EFile "a.md"]);
                                 EDir "node_modules" (Some [EFile "x.js"]);
                                 EBroken "sock"; EBroken "stale"]) in
  snd (generateTree (fun _ => false) Rel Join DT "/proj" ["/proj/node_modules"] tree) = None /\
  names_no_nl tree = true /\ ContainsChar (FilePath.Base "/proj") newline = false /\
  count_nl (fst (generateTree (fun _ => false) Rel Join DT "/proj" ["/proj/node_modules"] tree)) =
  S (visible_count (fun _ => false) Rel Join DT "/proj" ["/proj/node_modules"] "/proj" tree).
Proof.
  intros Join Rel DT tree.
  split; [vm_compute; reflexivity|]. split; [reflexivity|]. split; [vm_compute; reflexivity|].
  apply generateTree_one_line_per_entry; [vm_compute; reflexivity|reflexivity|vm_compute; reflexivity].
Defined.
